(** * Task dashboard: filter engine, stats engine, status progression, store

    A shallow embedding of the pure logic of
    [src/todo-app/src/components/todo-dashboard.tsx]:
    [nextStatus] / [previousStatus], the [filteredTasks] and [stats] memos,
    and the four task-store mutations [handleAddTask], [handleDelete],
    [updateTask] and [toggleStatus].

    Modelling conventions.
    - A JavaScript string is a [string]: a sequence of code units below 256.
    - [undefined] in an optional field is [None].
    - React state is passed explicitly: every handler is a function from the
      state before the event to the state after it.
    - The ambient clock ([new Date()]), the identifier source
      ([crypto.randomUUID()]) and the date-fns / Intl functions are inputs. *)

From Stdlib Require Import ZArith QArith Qround Qabs Lia Lqa Ascii String.
From Stdlib Require Import Sorted Permutation.
From Stdlib Require PrimFloat.
From stdpp Require Import base decidable list strings.

Local Open Scope Z_scope.

(** ** Strings *)

Module Str.

Definition code (c : ascii) : nat := nat_of_ascii c.

Definition between (lo hi : nat) (c : ascii) : bool :=
  (Nat.leb lo (code c) && Nat.leb (code c) hi)%bool.

(** [String.prototype.toLowerCase] on code units below 256: the ASCII
    capitals and the Latin-1 capitals (all of U+00C0..U+00DE except the
    multiplication sign U+00D7) move up by 32. *)
Definition lowerChar (c : ascii) : ascii :=
  if (between 65 90 c
      || (between 192 222 c && negb (Nat.eqb (code c) 215)))%bool
  then ascii_of_nat (code c + 32)
  else c.

Fixpoint toLowerCase (s : string) : string :=
  match s with
  | EmptyString => EmptyString
  | String c s' => String (lowerChar c) (toLowerCase s')
  end.

(** [s.startsWith(p)] *)
Fixpoint startsWith (p s : string) : bool :=
  match p, s with
  | EmptyString, _ => true
  | String _ _, EmptyString => false
  | String a p', String b s' => (Ascii.eqb a b && startsWith p' s')%bool
  end.

(** [s.includes(sub)] *)
Fixpoint includes (s sub : string) : bool :=
  (startsWith sub s
   || match s with
      | EmptyString => false
      | String _ s' => includes s' sub
      end)%bool.

(** White space as [String.prototype.trim] sees it below 256:
    TAB, LF, VT, FF, CR, SPACE and NO-BREAK SPACE. *)
Definition isSpace (c : ascii) : bool :=
  (between 9 13 c || Nat.eqb (code c) 32 || Nat.eqb (code c) 160)%bool.

Fixpoint trimStart (s : string) : string :=
  match s with
  | EmptyString => EmptyString
  | String c s' => if isSpace c then trimStart s' else s
  end.

(** Drops the trailing white space: a character is kept when it is not a
    space or when something is kept after it. *)
Fixpoint trimEnd (s : string) : string :=
  match s with
  | EmptyString => EmptyString
  | String c s' =>
      match trimEnd s' with
      | EmptyString => if isSpace c then EmptyString else String c EmptyString
      | rest => String c rest
      end
  end.

Definition trim (s : string) : string := trimEnd (trimStart s).

(** [s.split(sep)] for a one-character separator.  The result is never
    empty: a string without the separator is returned whole, also when it
    is the empty string. *)
Fixpoint split (sep : ascii) (s : string) : list string :=
  match s with
  | EmptyString => [EmptyString]
  | String c s' =>
      if Ascii.eqb c sep then EmptyString :: split sep s'
      else match split sep s' with
           | [] => [String c EmptyString]
           | w :: ws => String c w :: ws
           end
  end.

Definition isAlnum (c : ascii) : bool :=
  (between 97 122 c || between 65 90 c || between 48 57 c)%bool.

(** [s.replace(/[^a-zA-Z0-9]/g, "")] *)
Fixpoint stripNonAlnum (s : string) : string :=
  match s with
  | EmptyString => EmptyString
  | String c s' =>
      if isAlnum c then String c (stripNonAlnum s') else stripNonAlnum s'
  end.

(** Truthiness of a string: [Boolean(s)], [if (s)], [!s]. *)
Definition truthy (s : string) : bool :=
  match s with EmptyString => false | String _ _ => true end.

End Str.

(** ** Data model *)

Inductive Status := Backlog | InProgress | Review | Done.
Inductive Priority := Low | Medium | High.

#[global] Instance Status_eq_dec : EqDecision Status.
Proof. solve_decision. Defined.
#[global] Instance Priority_eq_dec : EqDecision Priority.
Proof. solve_decision. Defined.

Record Task := mkTask {
  id : string;
  title : string;
  description : option string;
  status : Status;
  priority : Priority;
  dueDate : option string;
  tags : list string;
  createdAt : string;
}.

Inductive Horizon := HorizonAll | HorizonToday | HorizonOverdue.

#[global] Instance Horizon_eq_dec : EqDecision Horizon.
Proof. solve_decision. Defined.

(** [None] in [f_status] and [f_priority] is the value ["all"]. *)
Record Filters := mkFilters {
  f_query : string;
  f_status : option Status;
  f_priority : option Priority;
  f_horizon : Horizon;
}.

(** ** Status progression *)

Definition order : list Status := [Backlog; InProgress; Review; Done].

(** [Array.prototype.indexOf]: the first index holding [x], or [-1]. *)
Fixpoint indexOf `{EqDecision A} (x : A) (l : list A) : Z :=
  match l with
  | [] => -1
  | y :: l' =>
      if decide (y = x) then 0
      else let i := indexOf x l' in if i <? 0 then -1 else i + 1
  end.

(** [order[i]]: [undefined] outside the array. *)
Definition at_index {A} (l : list A) (i : Z) : option A :=
  if i <? 0 then None else l !! Z.to_nat i.

Definition nextStatus_raw (s : Status) : option Status :=
  let idx := indexOf s order in
  at_index order (Z.min (Z.of_nat (length order) - 1) (idx + 1)).

Definition previousStatus_raw (s : Status) : option Status :=
  let idx := indexOf s order in
  at_index order (Z.max 0 (idx - 1)).

(** The index computed by either function is always inside [order], so the
    array read never yields [undefined]. *)
Lemma nextStatus_defined s : is_Some (nextStatus_raw s).
Proof. destruct s; vm_compute; eauto. Qed.

Lemma previousStatus_defined s : is_Some (previousStatus_raw s).
Proof. destruct s; vm_compute; eauto. Qed.

Definition nextStatus (s : Status) : Status :=
  default s (nextStatus_raw s).

Definition previousStatus (s : Status) : Status :=
  default s (previousStatus_raw s).

(** ** What the host supplies *)

(** The three date-fns functions the dashboard calls.  [isToday] reads the
    clock itself, so the current instant is its first argument here;
    [isBefore d1 d2] is [isBefore(d1, d2)]. *)
Class DateFns := {
  Date : Type;
  parseISO : string -> Date;
  isToday : Date -> Date -> bool;
  isBefore : Date -> Date -> bool;
}.

(** [String.prototype.localeCompare], by the sign of its result.  The host's
    collation is a consistent comparator: swapping the arguments flips the
    sign, and "not after" is transitive.  The empty string is after no
    string. *)
Class Collation := {
  localeCompare : string -> string -> comparison;
  localeCompare_antisym a b : localeCompare b a = CompOpp (localeCompare a b);
  localeCompare_trans a b c :
    localeCompare a b <> Gt -> localeCompare b c <> Gt ->
    localeCompare a c <> Gt;
  localeCompare_empty a : localeCompare EmptyString a <> Gt;
}.

(** Number arithmetic.  [fl x] is the binary64 value that an operation with
    exact result [x] returns.  Rounding to nearest keeps the relative error
    within 2^-53 as long as [x] is zero or in the normal range; the part of
    that range between 2^-64 and 2^64 is all the dashboard ever reaches. *)
Definition ulp_half : Q := 1 # (2 ^ 53).
Definition fl_lo : Q := 1 # (2 ^ 64).
Definition fl_hi : Q := inject_Z (2 ^ 64).

Class Float64 := {
  fl : Q -> Q;
  fl_error x :
    (x == 0 \/ (fl_lo <= x /\ x <= fl_hi))%Q ->
    (Qabs (fl x - x) <= x * ulp_half)%Q;
}.

(** [Math.round] of a number: the nearest integer, a tie going up. *)
Definition Math_round (x : Q) : Z := Qfloor (x + (1 # 2)).

(** ** Filter engine and stats engine *)

Definition is_done (t : Task) : bool := bool_decide (status t = Done).

(** [task.dueDate] when it is truthy: present and not the empty string. *)
Definition due_of (t : Task) : option string :=
  match dueDate t with
  | Some d => if Str.truthy d then Some d else None
  | None => None
  end.

(** [x || ""] for an optional string. *)
Definition or_empty (x : option string) : string := default EmptyString x.

(** Stable insertion sort by a three-way comparator, the order
    [Array.prototype.sort] produces for a consistent comparator. *)
Fixpoint insertBy {A} (cmp : A -> A -> comparison) (x : A) (l : list A) : list A :=
  match l with
  | [] => [x]
  | y :: l' =>
      match cmp x y with
      | Gt => y :: insertBy cmp x l'
      | _ => x :: l
      end
  end.

Definition sortBy {A} (cmp : A -> A -> comparison) (l : list A) : list A :=
  foldr (insertBy cmp) [] l.

(** [l.slice(-n)] *)
Definition slice_last {A} (n : nat) (l : list A) : list A :=
  drop (length l - n) l.

Record Stats := mkStats {
  totals : nat;
  done : nat;
  overdue : nat;
  health : Z;
  flow : list Task;
  focus : option Task;
}.

Section Engines.
Context {dates : DateFns} {collation : Collation} {numbers : Float64}.

(** The callback of [tasks.filter] in [filteredTasks], one early return
    after the other.  [now] is [new Date()]. *)
Definition keep (now : Date) (filters : Filters) (task : Task) : bool :=
  if (Str.truthy (f_query filters)
      && (let query := Str.toLowerCase (f_query filters) in
          negb (Str.includes (Str.toLowerCase (title task)) query)
          && negb (match description task with
                   | Some d => Str.includes (Str.toLowerCase d) query
                   | None => false
                   end)
          && negb (existsb (fun tag => Str.includes (Str.toLowerCase tag) query)
                           (tags task))))%bool
  then false
  else if (bool_decide (f_status filters <> None)
           && bool_decide (Some (status task) <> f_status filters))%bool
  then false
  else if (bool_decide (f_priority filters <> None)
           && bool_decide (Some (priority task) <> f_priority filters))%bool
  then false
  else
    match f_horizon filters, due_of task with
    | HorizonAll, _ | _, None => true
    | h, Some d =>
        let due := parseISO d in
        if (bool_decide (h = HorizonToday) && negb (isToday now due))%bool
        then false
        else if (bool_decide (h = HorizonOverdue) && negb (isBefore due now))%bool
        then false
        else true
    end.

Definition filteredTasks (now : Date) (tasks : list Task) (filters : Filters)
  : list Task :=
  filter (fun task => keep now filters task) tasks.

(** The callback of the [overdue] count. *)
Definition is_overdue (now : Date) (task : Task) : bool :=
  match due_of task with
  | None => false
  | Some d => (isBefore (parseISO d) now && negb (is_done task))%bool
  end.

Definition flowCompare (a b : Task) : comparison :=
  localeCompare (or_empty (dueDate a)) (or_empty (dueDate b)).

Definition health_of (totals done : nat) : Z :=
  if Nat.eqb totals 0 then 0
  else Math_round
         (fl (fl (inject_Z (Z.of_nat done) / inject_Z (Z.of_nat totals)) * 100)).

Definition stats (now : Date) (tasks : list Task) : Stats :=
  let totals := length tasks in
  let done := length (filter (fun task => is_done task) tasks) in
  let overdue := length (filter (fun task => is_overdue now task) tasks) in
  let flow :=
    slice_last 3 (sortBy flowCompare (filter (fun task => is_done task) tasks)) in
  let focus :=
    match List.find (fun task => bool_decide (status task = InProgress)) tasks with
    | Some t => Some t
    | None => List.find (fun task => bool_decide (status task = Backlog)) tasks
    end in
  {| totals := totals; done := done; overdue := overdue;
     health := health_of totals done; flow := flow; focus := focus |}.

End Engines.

(** ** Task store *)

(** [Partial<Task>]: every key may be missing ([None]).  For the two keys
    that are optional in [Task] a key that is present may still hold
    [undefined] ([Some None]). *)
Record PartialTask := mkPartial {
  p_id : option string;
  p_title : option string;
  p_description : option (option string);
  p_status : option Status;
  p_priority : option Priority;
  p_dueDate : option (option string);
  p_tags : option (list string);
  p_createdAt : option string;
}.

(** Reading an optional key: missing and [undefined] read the same. *)
Definition read_opt (x : option (option string)) : option string :=
  match x with Some v => v | None => None end.

(** [{ ...task, ...changes }] *)
Definition merge (task : Task) (changes : PartialTask) : Task :=
  {| id := default (id task) (p_id changes);
     title := default (title task) (p_title changes);
     description := default (description task) (p_description changes);
     status := default (status task) (p_status changes);
     priority := default (priority task) (p_priority changes);
     dueDate := default (dueDate task) (p_dueDate changes);
     tags := default (tags task) (p_tags changes);
     createdAt := default (createdAt task) (p_createdAt changes) |}.

(** The three pieces of component state the handlers touch. *)
Record AppState := mkState {
  tasks : list Task;
  draft : PartialTask;
  draftTags : string;
}.

(** The draft the form starts from and returns to after a task is added. *)
Definition blankDraft : PartialTask :=
  {| p_id := None;
     p_title := Some EmptyString;
     p_description := Some (Some EmptyString);
     p_status := Some Backlog;
     p_priority := Some Medium;
     p_dueDate := Some (Some EmptyString);
     p_tags := Some [];
     p_createdAt := None |}.

Definition nonEmpty (l : list string) : list string :=
  List.filter Str.truthy l.

(** The tag list of a new task: the comma-separated input when it is not
    blank, otherwise the first two space-separated pieces of the title as
    typed. *)
Definition tagList (rawTitle rawTags : string) : list string :=
  if (0 <? String.length (Str.trim rawTags))%nat
  then nonEmpty (map Str.trim (Str.split "," rawTags))
  else nonEmpty (map Str.stripNonAlnum (take 2 (Str.split " " rawTitle))).

(** [handleAddTask], with the two values it draws from the environment:
    [uuid] is the result of [crypto.randomUUID()] and [stamp] that of
    [new Date().toISOString()]. *)
Definition handleAddTask (uuid stamp : string) (st : AppState) : AppState :=
  match p_title (draft st) with
  | None => st
  | Some rawTitle =>
      if negb (Str.truthy (Str.trim rawTitle)) then st
      else
        let task :=
          {| id := uuid;
             title := Str.trim rawTitle;
             description := Str.trim <$> read_opt (p_description (draft st));
             priority := default Medium (p_priority (draft st));
             status := default Backlog (p_status (draft st));
             dueDate :=
               match read_opt (p_dueDate (draft st)) with
               | Some d => if Str.truthy d then Some d else None
               | None => None
               end;
             tags := tagList rawTitle (draftTags st);
             createdAt := stamp |} in
        {| tasks := task :: tasks st;
           draft := blankDraft;
           draftTags := EmptyString |}
  end.

(** The three remaining handlers replace the task list by a function of the
    previous one and leave the rest of the state alone; they are given here
    as that function. *)
Definition handleDelete (i : string) (prev : list Task) : list Task :=
  filter (fun task => id task <> i) prev.

Definition updateTask (i : string) (changes : PartialTask) (prev : list Task)
  : list Task :=
  map (fun task => if decide (id task = i) then merge task changes else task) prev.

Inductive Direction := Forward | Backward.

Definition toggleStatus (i : string) (direction : Direction) (prev : list Task)
  : list Task :=
  map (fun task =>
         if decide (id task <> i) then task
         else
           let target :=
             match direction with
             | Forward => nextStatus (status task)
             | Backward => previousStatus (status task)
             end in
           merge task {| p_id := None; p_title := None; p_description := None;
                         p_status := Some target; p_priority := None;
                         p_dueDate := None; p_tags := None;
                         p_createdAt := None |})
      prev.

(** ** Reference instances, for running the definitions *)

(** Calendar dates [YYYY-MM-DD] in the UTC zone.  A date is its time value in
    milliseconds, or [None] for an invalid date. *)
Module UtcCalendar.

Definition digit (c : ascii) : option Z :=
  if Str.between 48 57 c then Some (Z.of_nat (Str.code c) - 48) else None.

Definition two (a b : ascii) : option Z :=
  x ← digit a; y ← digit b; Some (10 * x + y).

Definition leap (y : Z) : bool :=
  ((y mod 4 =? 0) && (negb (y mod 100 =? 0) || (y mod 400 =? 0)))%bool.

Definition daysInMonth (y m : Z) : Z :=
  if m =? 2 then (if leap y then 29 else 28)
  else if ((m =? 4) || (m =? 6) || (m =? 9) || (m =? 11))%bool then 30
  else 31.

(** Days from 1970-01-01 to the given civil date. *)
Definition daysFromCivil (y m d : Z) : Z :=
  let y' := if m <=? 2 then y - 1 else y in
  let era := y' / 400 in
  let yoe := y' - era * 400 in
  let mp := if m <=? 2 then m + 9 else m - 3 in
  let doy := (153 * mp + 2) / 5 + d - 1 in
  let doe := yoe * 365 + yoe / 4 - yoe / 100 + doy in
  era * 146097 + doe - 719468.

Definition msPerDay : Z := 86400000.

Definition parse (s : string) : option Z :=
  match s with
  | String y1 (String y2 (String y3 (String y4 (String "-"
      (String m1 (String m2 (String "-"
        (String d1 (String d2 EmptyString))))))))) =>
      yh ← two y1 y2; yl ← two y3 y4; m ← two m1 m2; d ← two d1 d2;
      let y := 100 * yh + yl in
      if ((1 <=? m) && (m <=? 12) && (1 <=? d) && (d <=? daysInMonth y m))%bool
      then Some (daysFromCivil y m d * msPerDay)
      else None
  | _ => None
  end.

Definition sameDay (now d : option Z) : bool :=
  match now, d with
  | Some n, Some x => n / msPerDay =? x / msPerDay
  | _, _ => false
  end.

Definition before (a b : option Z) : bool :=
  match a, b with
  | Some x, Some y => x <? y
  | _, _ => false
  end.

#[export] Instance dateFns : DateFns :=
  {| Date := option Z; parseISO := parse; isToday := sameDay; isBefore := before |}.

End UtcCalendar.

(** Comparison by code units. *)
Module CodeUnits.

Lemma ascii_compare_trans a b c :
  Ascii.compare a b <> Gt -> Ascii.compare b c <> Gt -> Ascii.compare a c <> Gt.
Proof.
  unfold Ascii.compare. rewrite !N.compare_le_iff. apply N.le_trans.
Qed.

Lemma ascii_compare_eq a b : Ascii.compare a b = Eq -> a = b.
Proof. apply Ascii.compare_eq_iff. Qed.

Lemma compare_trans a : forall b c,
  String.compare a b <> Gt -> String.compare b c <> Gt ->
  String.compare a c <> Gt.
Proof.
  induction a as [|x a IH]; intros [|y b] [|z c]; simpl; try congruence.
  destruct (Ascii.compare x y) eqn:Hxy; try congruence;
    destruct (Ascii.compare y z) eqn:Hyz; try congruence.
  - apply ascii_compare_eq in Hxy, Hyz. subst.
    unfold Ascii.compare at 1. rewrite N.compare_refl. apply IH.
  - apply ascii_compare_eq in Hxy. subst. rewrite Hyz. congruence.
  - apply ascii_compare_eq in Hyz. subst. rewrite Hxy. congruence.
  - intros _ _.
    assert (Hxz : Ascii.compare x z = Lt).
    { revert Hxy Hyz. unfold Ascii.compare.
      rewrite !N.compare_lt_iff. apply N.lt_trans. }
    rewrite Hxz. congruence.
Qed.

#[export] Instance collation : Collation.
Proof.
  refine {| localeCompare := String.compare |}.
  - intros a b. apply String.compare_antisym.
  - intros a b c. apply compare_trans.
  - intros [|c a]; discriminate.
Defined.

End CodeUnits.

(** Arithmetic without rounding error. *)
Module Exact.

#[export] Instance float64 : Float64.
Proof.
  refine {| fl := fun x => x |}.
  intros x Hx.
  assert (Hz : (x - x == 0)%Q) by ring.
  rewrite Hz. simpl.
  assert (0 <= x)%Q.
  { destruct Hx as [-> | [Hlo _]]; [apply Qle_refl|].
    eapply Qle_trans; [|exact Hlo]. unfold fl_lo. apply Qle_bool_imp_le. reflexivity. }
  apply Qmult_le_0_compat; [assumption|]. unfold ulp_half.
  apply Qle_bool_imp_le. reflexivity.
Defined.

End Exact.

(** * Properties *)

(** ** Strings *)

Lemma startsWith_spec p : forall s,
  Str.startsWith p s = true <-> exists post, s = p +:+ post.
Proof.
  induction p as [|a p IH]; intros s; simpl.
  - split; [intros _; exists s; reflexivity | reflexivity].
  - destruct s as [|b s]; simpl.
    + split; [discriminate | intros [post Hpost]; discriminate].
    + rewrite andb_true_iff, Ascii.eqb_eq, IH. split.
      * intros [-> [post ->]]. exists post. reflexivity.
      * intros [post Hpost]. injection Hpost as -> ->. eauto.
Qed.

(** [includes] finds exactly the strings that occur as a contiguous part. *)
Lemma includes_spec s sub :
  Str.includes s sub = true <-> exists pre post, s = pre +:+ sub +:+ post.
Proof.
  split.
  - induction s as [|c s IH]; simpl; rewrite orb_true_iff; intros [Hs | Hi].
    + apply startsWith_spec in Hs as [post ->]. exists EmptyString, post. reflexivity.
    + discriminate.
    + apply startsWith_spec in Hs as [post ->]. exists EmptyString, post. reflexivity.
    + destruct (IH Hi) as (pre & post & ->). exists (String c pre), post. reflexivity.
  - intros (pre & post & ->). induction pre as [|c pre IH]; simpl.
    + destruct (sub +:+ post) eqn:E; simpl; rewrite orb_true_iff; left;
        apply startsWith_spec; exists post; symmetry; exact E.
    + rewrite orb_true_iff. right. exact IH.
Qed.

Lemma includes_empty s : Str.includes s EmptyString = true.
Proof. destruct s; reflexivity. Qed.

Lemma truthy_false s : Str.truthy s = false <-> s = EmptyString.
Proof. destruct s; simpl; split; congruence. Qed.

Lemma truthy_true s : Str.truthy s = true <-> s <> EmptyString.
Proof. destruct s; simpl; split; congruence. Qed.

(** A string made of white space only; the empty string is one. *)
Fixpoint blank (s : string) : bool :=
  match s with
  | EmptyString => true
  | String c s' => (Str.isSpace c && blank s')%bool
  end.

Lemma trimEnd_blank s : Str.trimEnd s = EmptyString <-> blank s = true.
Proof.
  induction s as [|c s IH]; simpl; [tauto|].
  rewrite andb_true_iff, <- IH.
  destruct (Str.trimEnd s), (Str.isSpace c); split; intros; try tauto;
    try congruence; destruct H; congruence.
Qed.

Lemma trimStart_blank s : blank (Str.trimStart s) = blank s.
Proof.
  induction s as [|c s IH]; simpl; [reflexivity|].
  destruct (Str.isSpace c) eqn:E; simpl; [exact IH | rewrite E; reflexivity].
Qed.

(** [trim] returns the empty string exactly on the blank strings. *)
Lemma trim_blank s : Str.trim s = EmptyString <-> blank s = true.
Proof. unfold Str.trim. rewrite trimEnd_blank, trimStart_blank. tauto. Qed.

(** ** Status progression *)

(** The position of a stage in [order]. *)
Definition stage (s : Status) : Z := indexOf s order.

(** The step [toggleStatus] applies in a given direction. *)
Definition step (direction : Direction) (s : Status) : Status :=
  match direction with
  | Forward => nextStatus s
  | Backward => previousStatus s
  end.

Lemma toggleStatus_cons i direction task prev :
  toggleStatus i direction (task :: prev)
  = (if decide (id task = i)
     then mkTask (id task) (title task) (description task)
                 (step direction (status task)) (priority task)
                 (dueDate task) (tags task) (createdAt task)
     else task) :: toggleStatus i direction prev.
Proof.
  unfold toggleStatus; simpl.
  destruct (decide (id task <> i)), (decide (id task = i));
    first [reflexivity | exfalso; tauto].
Qed.

Lemma toggleStatus_single i direction ti de s pr du tg cr :
  toggleStatus i direction [mkTask i ti de s pr du tg cr]
  = [mkTask i ti de (step direction s) pr du tg cr].
Proof.
  rewrite toggleStatus_cons; simpl.
  destruct (decide (i = i)); [reflexivity | congruence].
Qed.

(** C4: [nextStatus] and [previousStatus] are total on the four stages (the
    array read behind each never comes back undefined), they move the stage
    by exactly one position, clamped at both ends, so [done] advances to
    [done] and [backlog] retreats to [backlog]; advancing and then
    retreating a task at [backlog] gives [backlog] back, and the same round
    trip from [in-progress] passes through [review] and returns to
    [in-progress]. *)
Theorem C4_status_steps_total_and_clamped :
  (forall s, nextStatus_raw s = Some (nextStatus s)
             /\ previousStatus_raw s = Some (previousStatus s))
  /\ (forall s, stage (nextStatus s) = Z.min 3 (stage s + 1)
                /\ stage (previousStatus s) = Z.max 0 (stage s - 1))
  /\ map stage order = [0; 1; 2; 3]
  /\ map nextStatus order = [InProgress; Review; Done; Done]
  /\ map previousStatus order = [Backlog; Backlog; InProgress; Review]
  /\ previousStatus (nextStatus Backlog) = Backlog
  /\ (nextStatus InProgress = Review /\ previousStatus Review = InProgress)
  /\ (forall i ti de pr du tg cr,
        let task s := mkTask i ti de s pr du tg cr in
        toggleStatus i Backward (toggleStatus i Forward [task Backlog])
          = [task Backlog]
        /\ toggleStatus i Forward [task InProgress] = [task Review]
        /\ toggleStatus i Backward [task Review] = [task InProgress]
        /\ toggleStatus i Forward [task Done] = [task Done]
        /\ toggleStatus i Backward [task Backlog] = [task Backlog]).
Proof.
  repeat split; try (destruct s; reflexivity); try reflexivity;
    rewrite !toggleStatus_single; reflexivity.
Qed.

(** ** Filter engine *)

(** A task has a due date, as the code tests it, when the field is present
    and not the empty string. *)
Lemma due_of_Some t d :
  due_of t = Some d <-> dueDate t = Some d /\ d <> EmptyString.
Proof.
  unfold due_of. destruct (dueDate t) as [[|c d']|]; simpl; split;
    intros H; try discriminate; try (destruct H; congruence).
  injection H as <-. split; [reflexivity | discriminate].
Qed.

Lemma due_of_None t :
  due_of t = None -> forall d, dueDate t = Some d -> d <> EmptyString -> False.
Proof.
  intros Hn d Hd Hne.
  assert (Hs : due_of t = Some d) by (apply due_of_Some; split; assumption).
  congruence.
Qed.

Section FilterSpec.
Context {dates : DateFns}.

(** [hay] contains [needle] when case is ignored. *)
Definition contains_ci (hay needle : string) : Prop :=
  exists pre post,
    Str.toLowerCase hay = pre +:+ Str.toLowerCase needle +:+ post.

(** The four constraints, in the words of the filter's contract. *)
Definition passes_query (q : string) (t : Task) : Prop :=
  q = EmptyString
  \/ contains_ci (title t) q
  \/ (exists d, description t = Some d /\ contains_ci d q)
  \/ (exists tag, tag ∈ tags t /\ contains_ci tag q).

Definition passes_status (f : option Status) (t : Task) : Prop :=
  f = None \/ f = Some (status t).

Definition passes_priority (f : option Priority) (t : Task) : Prop :=
  f = None \/ f = Some (priority t).

(** The horizon binds only a task that has a due date: the field is present
    and not the empty string. *)
Definition passes_horizon (now : Date) (h : Horizon) (t : Task) : Prop :=
  forall d, dueDate t = Some d -> d <> EmptyString ->
    match h with
    | HorizonAll => True
    | HorizonToday => isToday now (parseISO d) = true
    | HorizonOverdue => isBefore (parseISO d) now = true
    end.

Definition passes (now : Date) (F : Filters) (t : Task) : Prop :=
  passes_query (f_query F) t
  /\ passes_status (f_status F) t
  /\ passes_priority (f_priority F) t
  /\ passes_horizon now (f_horizon F) t.

Lemma contains_ci_includes hay needle :
  Str.includes (Str.toLowerCase hay) (Str.toLowerCase needle) = true
  <-> contains_ci hay needle.
Proof. apply includes_spec. Qed.

Lemma query_check q t :
  (Str.truthy q
   && (negb (Str.includes (Str.toLowerCase (title t)) (Str.toLowerCase q))
       && negb (match description t with
                | Some d => Str.includes (Str.toLowerCase d) (Str.toLowerCase q)
                | None => false
                end)
       && negb (existsb (fun tag => Str.includes (Str.toLowerCase tag)
                                                 (Str.toLowerCase q))
                        (tags t))))%bool = false
  <-> passes_query q t.
Proof.
  unfold passes_query.
  rewrite andb_false_iff, !andb_false_iff, !negb_false_iff, truthy_false.
  rewrite contains_ci_includes, existsb_exists.
  split.
  - intros [Hq | [[Ht | Hd] | (tag & Hin & Htag)]]; auto.
    + destruct (description t) as [d|]; [|discriminate].
      right; right; left. exists d. split; [reflexivity|].
      apply contains_ci_includes; exact Hd.
    + right; right; right. exists tag. split; [apply list_elem_of_In; exact Hin|].
      apply contains_ci_includes; exact Htag.
  - intros [Hq | [Ht | [(d & Hd & Hc) | (tag & Hin & Htag)]]]; auto.
    + right; left; right. rewrite Hd. apply contains_ci_includes; exact Hc.
    + right; right. exists tag. split; [apply list_elem_of_In; exact Hin|].
      apply contains_ci_includes; exact Htag.
Qed.

Lemma choice_check {A} `{EqDecision A} (f : option A) (x : A) :
  (bool_decide (f <> None) && bool_decide (Some x <> f))%bool = false
  <-> (f = None \/ f = Some x).
Proof.
  rewrite andb_false_iff, !bool_decide_eq_false.
  destruct f as [y|]; split; intros [Hl | Hr]; try congruence; auto.
  - exfalso. apply Hl. discriminate.
  - right. destruct (decide (Some x = Some y)) as [E|E]; [congruence | tauto].
Qed.

Lemma horizon_check now h t :
  match h, due_of t with
  | HorizonAll, _ | _, None => true
  | h, Some d =>
      let due := parseISO d in
      if (bool_decide (h = HorizonToday) && negb (isToday now due))%bool
      then false
      else if (bool_decide (h = HorizonOverdue) && negb (isBefore due now))%bool
      then false
      else true
  end = true
  <-> passes_horizon now h t.
Proof.
  unfold passes_horizon.
  destruct (due_of t) as [d|] eqn:Hdue.
  - apply due_of_Some in Hdue as [Hd Hne].
    destruct h; simpl; split; intros Hk; try reflexivity;
      try (intros d' _ _; exact I).
    + intros d' Hd' _. assert (d' = d) as -> by congruence.
      destruct (isToday now (parseISO d)); [reflexivity | discriminate].
    + rewrite (Hk d Hd Hne). reflexivity.
    + intros d' Hd' _. assert (d' = d) as -> by congruence.
      destruct (isBefore (parseISO d) now); [reflexivity | discriminate].
    + rewrite (Hk d Hd Hne). reflexivity.
  - destruct h; simpl; split; intros Hk; try reflexivity; intros d Hd Hne;
      try exact I; exfalso; apply (due_of_None t Hdue d Hd Hne).
Qed.

(** The callback keeps a task exactly when the four constraints hold. *)
Lemma keep_passes now F t : keep now F t = true <-> passes now F t.
Proof.
  unfold keep, passes, passes_status, passes_priority.
  rewrite <- query_check, <- !choice_check, <- horizon_check.
  repeat match goal with
         | |- context [if ?b then false else _] => destruct b
         end; try (intuition congruence).
  destruct (f_horizon F), (due_of t); simpl; intuition congruence.
Qed.

Lemma filteredTasks_elem now L F t :
  t ∈ filteredTasks now L F <-> t ∈ L /\ passes now F t.
Proof.
  unfold filteredTasks. rewrite list_elem_of_filter, Is_true_true, keep_passes. tauto.
Qed.

End FilterSpec.

(** What [stats] counts as overdue, on a single task. *)
Lemma overdue_single {dates : DateFns} {collation : Collation} {numbers : Float64} now t :
  overdue (stats now [t]) = if is_overdue now t then 1%nat else 0%nat.
Proof.
  unfold stats; simpl. rewrite filter_cons, filter_nil.
  destruct (is_overdue now t); reflexivity.
Qed.

(** C1: the filter keeps exactly the tasks of the list that pass the text
    query (empty query, or title, description or some tag containing it with
    case ignored), the status and the priority choice (["all"] or the same
    value) and the due horizon, which looks only at tasks that have a due
    date: [today] asks for a due date on the current day, [overdue] for one
    strictly before the current instant, whatever the status.  So a [done]
    task that is past due is kept by the [overdue] horizon although the
    [overdue] count of [stats] leaves it out. *)
Theorem C1_filter_keeps_exactly_passing_tasks {dates : DateFns} {collation : Collation} {numbers : Float64} :
  (forall now L F t,
      t ∈ filteredTasks now L F
      <-> t ∈ L
          /\ passes_query (f_query F) t
          /\ passes_status (f_status F) t
          /\ passes_priority (f_priority F) t
          /\ passes_horizon now (f_horizon F) t)
  /\ (forall now i ti de pr d tg cr,
        d <> EmptyString ->
        isBefore (parseISO d) now = true ->
        let t := mkTask i ti de Done pr (Some d) tg cr in
        filteredTasks now [t] (mkFilters EmptyString None None HorizonOverdue) = [t]
        /\ overdue (stats now [t]) = 0%nat).
Proof.
  split.
  - intros now L F t. apply filteredTasks_elem.
  - intros now i ti de pr d tg cr Hd Hbefore t. split.
    + unfold filteredTasks. apply filter_singleton_True; [exact []|].
      apply Is_true_true, keep_passes.
      repeat split; try (left; reflexivity).
      intros d' Hd' _. simpl in Hd'. injection Hd' as <-. exact Hbefore.
    + rewrite overdue_single. unfold is_overdue.
      destruct (due_of t); [|reflexivity].
      rewrite andb_false_r. reflexivity.
Qed.

(** The first of March 2024 on the reference calendar; the task [jan] of
    the scenario below, finished and due on the first of January, is past
    due by then. *)
Definition march1 : option Z := UtcCalendar.parse "2024-03-01".

Definition pastDueDone : Task :=
  mkTask "1" "January report" None Done Low (Some "2024-01-01"%string) [] "".

Lemma C1_done_task_matches_overdue_horizon :
  filteredTasks (dates := UtcCalendar.dateFns) march1 [pastDueDone]
                (mkFilters EmptyString None None HorizonOverdue) = [pastDueDone]
  /\ overdue (stats (dates := UtcCalendar.dateFns)
                    (collation := CodeUnits.collation)
                    (numbers := Exact.float64) march1 [pastDueDone]) = 0%nat.
Proof.
  apply (proj2 (C1_filter_keeps_exactly_passing_tasks
                  (dates := UtcCalendar.dateFns)
                  (collation := CodeUnits.collation)
                  (numbers := Exact.float64))
               march1 "1"%string "January report"%string None Low
               "2024-01-01"%string [] EmptyString).
  - discriminate.
  - reflexivity.
Defined.

(** The filters the dashboard starts with. *)
Definition identityFilters : Filters :=
  {| f_query := EmptyString; f_status := None; f_priority := None;
     f_horizon := HorizonAll |}.

Lemma filter_everything {A} (P : A -> Prop) `{!forall x, Decision (P x)} (l : list A) :
  Forall P l -> filter P l = l.
Proof.
  induction 1 as [|x l Hx _ IH]; [reflexivity|].
  rewrite filter_cons_True by exact Hx. rewrite IH. reflexivity.
Qed.

(** C5: whatever the filters, the filtered list is the task list with some
    tasks left out, the remaining ones in their original order; with the
    identity filters nothing is left out. *)
Theorem C5_filter_is_order_preserving_sublist {dates : DateFns} :
  forall now L,
    (forall F, filteredTasks now L F `sublist_of` L)
    /\ filteredTasks now L identityFilters = L.
Proof.
  intros now L. split.
  - intros F. apply sublist_filter.
  - apply filter_everything, Forall_forall. intros t _.
    apply Is_true_true, keep_passes.
    repeat split; left; reflexivity.
Qed.

(** ** Stats engine: focus *)

(** [t] is the first task of [L] that satisfies [P]. *)
Definition first_with (P : Task -> Prop) (L : list Task) (t : Task) : Prop :=
  exists before after,
    L = before ++ t :: after /\ P t /\ Forall (fun x => ~ P x) before.

Lemma find_first (p : Task -> bool) (L : list Task) :
  match List.find p L with
  | Some t => first_with (fun x => p x = true) L t
  | None => Forall (fun x => p x <> true) L
  end.
Proof.
  induction L as [|x L IH]; simpl; [constructor|].
  destruct (p x) eqn:Hx.
  - exists [], L. repeat split; [exact Hx | constructor].
  - destruct (List.find p L) as [t|].
    + destruct IH as (before & after & -> & Ht & Hbefore).
      exists (x :: before), after. repeat split; [exact Ht|].
      constructor; [congruence | exact Hbefore].
    + constructor; [congruence | exact IH].
Qed.

Lemma first_with_iff (P Q : Task -> Prop) L t :
  (forall x, P x <-> Q x) -> first_with P L t -> first_with Q L t.
Proof.
  intros HPQ (before & after & -> & Ht & Hbefore).
  exists before, after. repeat split; [apply HPQ; exact Ht|].
  eapply Forall_impl; [exact Hbefore|]. intros x Hx HQ. apply Hx, HPQ, HQ.
Qed.

(** C7: the focus task is the first [in-progress] task of the list; when
    the list has none it is the first [backlog] task; when it has neither
    there is no focus task. *)
Theorem C7_focus_first_in_progress_else_first_backlog
    {dates : DateFns} {collation : Collation} {numbers : Float64} :
  forall now L,
    match focus (stats now L) with
    | Some t =>
        first_with (fun x => status x = InProgress) L t
        \/ (Forall (fun x => status x <> InProgress) L
            /\ first_with (fun x => status x = Backlog) L t)
    | None =>
        Forall (fun x => status x <> InProgress) L
        /\ Forall (fun x => status x <> Backlog) L
    end.
Proof.
  intros now L. unfold stats; simpl.
  pose proof (find_first (fun task => bool_decide (status task = InProgress)) L) as Hp.
  pose proof (find_first (fun task => bool_decide (status task = Backlog)) L) as Hb.
  assert (Hdec : forall s x, bool_decide (status x = s) = true <-> status x = s).
  { intros s x. apply bool_decide_eq_true. }
  destruct (List.find _ L) as [t|].
  - left. eapply first_with_iff; [|exact Hp]. intros x. apply Hdec.
  - assert (Hnone : Forall (fun x => status x <> InProgress) L).
    { eapply Forall_impl; [exact Hp|]. intros x Hx Hs. apply Hx, Hdec, Hs. }
    destruct (List.find _ L) as [t|].
    + right. split; [exact Hnone|].
      eapply first_with_iff; [|exact Hb]. intros x. apply Hdec.
    + split; [exact Hnone|].
      eapply Forall_impl; [exact Hb|]. intros x Hx Hs. apply Hx, Hdec, Hs.
Qed.

(** ** Stats engine: flow *)

Section SortBy.
Context {A : Type} (cmp : A -> A -> comparison).

(** [a] is not after [b]. *)
Definition not_after (a b : A) : Prop := cmp a b <> Gt.

Hypothesis cmp_antisym : forall a b, cmp b a = CompOpp (cmp a b).
Hypothesis cmp_trans : forall a b c, not_after a b -> not_after b c -> not_after a c.

Lemma insertBy_Permutation x l : insertBy cmp x l ≡ₚ x :: l.
Proof.
  induction l as [|y l IH]; simpl; [reflexivity|].
  destruct (cmp x y); try reflexivity.
  rewrite IH. apply Permutation_swap.
Qed.

Lemma sortBy_Permutation l : sortBy cmp l ≡ₚ l.
Proof.
  induction l as [|x l IH]; simpl; [reflexivity|].
  unfold sortBy in *; simpl. rewrite insertBy_Permutation, IH. reflexivity.
Qed.

Lemma insertBy_sorted x l :
  StronglySorted not_after l -> StronglySorted not_after (insertBy cmp x l).
Proof.
  induction l as [|y l IH]; simpl; intros Hs.
  - repeat constructor.
  - inversion_clear Hs as [|? ? Hl Hy].
    assert (Hkeep : not_after x y -> StronglySorted not_after (x :: y :: l)).
    { intros Hxy. constructor; [constructor; assumption|].
      constructor; [exact Hxy|].
      eapply Forall_impl; [exact Hy|]. intros z Hz. eapply cmp_trans; eassumption. }
    destruct (cmp x y) eqn:Hxy.
    + apply Hkeep. unfold not_after. congruence.
    + apply Hkeep. unfold not_after. congruence.
    + constructor; [apply IH; exact Hl|].
      rewrite insertBy_Permutation. constructor; [|exact Hy].
      unfold not_after. rewrite cmp_antisym, Hxy. discriminate.
Qed.

Lemma sortBy_sorted l : StronglySorted not_after (sortBy cmp l).
Proof.
  induction l as [|x l IH]; [constructor|].
  unfold sortBy in *; simpl. apply insertBy_sorted, IH.
Qed.

End SortBy.

Lemma slice_last_length {A} n (l : list A) : (length (slice_last n l) <= n)%nat.
Proof. unfold slice_last. rewrite length_drop. lia. Qed.

(** The order of the momentum feed: by due date, a missing one read as the
    empty string. *)
Definition due_not_after {collation : Collation} (a b : Task) : Prop :=
  localeCompare (or_empty (dueDate a)) (or_empty (dueDate b)) <> Gt.

(** The three finished tasks of the scenario, in the order of the list. *)
Definition jan : Task :=
  mkTask "1" "January report" None Done Low (Some "2024-01-01"%string) [] "".
Definition feb : Task :=
  mkTask "2" "February report" None Done Low (Some "2024-02-01"%string) [] "".
Definition undated : Task :=
  mkTask "3" "Archive notes" None Done Low None [] "".

(** C3: the momentum feed holds only [done] tasks and at most three of
    them; it is the last three entries (all of them when there are fewer) of
    the [done] tasks arranged in ascending order of due date, where a task
    without due date is compared as the empty string and so is after no
    other task.  Three [done] tasks due 2024-01-01, 2024-02-01 and never
    come out as: the undated one, 2024-01-01, 2024-02-01. *)
Theorem C3_flow_last_three_done_by_due_date
    {dates : DateFns} {collation : Collation} {numbers : Float64} :
  (forall now L,
      Forall (fun t => status t = Done) (flow (stats now L))
      /\ (length (flow (stats now L)) <= 3)%nat
      /\ exists sorted,
           sorted ≡ₚ filter (fun t => status t = Done) L
           /\ StronglySorted due_not_after sorted
           /\ flow (stats now L) = drop (length sorted - 3) sorted)
  /\ (forall a b, dueDate a = None -> due_not_after a b)
  /\ (forall now,
        flow (stats (collation := CodeUnits.collation) now [jan; feb; undated])
        = [undated; jan; feb]).
Proof.
  assert (Hdone : forall L : list Task,
             filter (fun task => is_done task) L = filter (fun t => status t = Done) L).
  { intros L. apply list_filter_iff. intros t. unfold is_done.
    rewrite Is_true_true. apply bool_decide_eq_true. }
  split; [|split].
  - intros now L. unfold stats; simpl. rewrite Hdone.
    set (dones := filter (fun t => status t = Done) L).
    assert (Hperm : sortBy flowCompare dones ≡ₚ dones) by apply sortBy_Permutation.
    split; [|split].
    + apply Forall_drop. rewrite Hperm.
      apply Forall_forall. intros t Ht. apply list_elem_of_filter in Ht. tauto.
    + apply slice_last_length.
    + exists (sortBy flowCompare dones). split; [exact Hperm|]. split; [|reflexivity].
      apply (sortBy_sorted flowCompare).
      * intros a b. apply localeCompare_antisym.
      * intros a b c. apply localeCompare_trans.
  - intros a b Ha. unfold due_not_after. rewrite Ha. apply localeCompare_empty.
  - intros now. reflexivity.
Qed.

(** The undated task of the scenario is not after the January one. *)
Lemma C3_undated_not_after_dated :
  due_not_after (collation := CodeUnits.collation) undated jan.
Proof.
  apply (proj1 (proj2 (C3_flow_last_three_done_by_due_date
                         (dates := UtcCalendar.dateFns)
                         (collation := CodeUnits.collation)
                         (numbers := Exact.float64)))).
  reflexivity.
Defined.

(** ** Stats engine: health *)

Section HealthBound.
Context {numbers : Float64}.
Local Open Scope Q_scope.

(** The error bound of [fl], with its constants written out. *)
Lemma fl_bounds x :
  (x == 0 \/ ((1 # 18446744073709551616) <= x /\ x <= 18446744073709551616 # 1)) ->
  x - x * (1 # 9007199254740992) <= fl x /\ fl x <= x + x * (1 # 9007199254740992).
Proof.
  intros Hx. pose proof (fl_error x Hx) as He.
  apply Qabs_Qle_condition in He.
  change ulp_half with (1 # 9007199254740992) in He.
  destruct He. split; lra.
Qed.

(** [D] finished tasks out of [T], fewer than 2^32: the computed
    percentage [b], multiplied back by [T], is within a quarter of
    [100 * D]. *)
Lemma percent_bounds (D T : Q) :
  0 <= D -> D <= T -> 1 <= T -> T <= 4294967296 # 1 ->
  (D == 0 \/ 1 <= D) ->
  let b := fl (fl (D / T) * 100) in
  0 <= b /\ b <= 401 # 4
  /\ (b * T <= 100 * D + (1 # 4))
  /\ (100 * D - (1 # 4) <= b * T).
Proof.
  intros HD HDT HT1 HT2 Hint b.
  assert (HTpos : 0 < T) by lra.
  set (q := D / T) in *.
  assert (HqT : q * T == D) by (unfold q; field; lra).
  assert (Hq0 : 0 <= q) by (apply Qle_shift_div_l; lra).
  assert (Hq1 : q <= 1) by (apply Qle_shift_div_r; lra).
  assert (Hq : q == 0 \/ (1 # 4294967296) <= q).
  { destruct Hint as [HD0 | HD1].
    - left. unfold q. rewrite HD0. field. lra.
    - right. apply Qle_shift_div_l; lra. }
  destruct (fl_bounds q) as [Ha1 Ha2].
  { destruct Hq; [left; assumption | right; split; lra]. }
  set (a := fl q) in *.
  destruct (fl_bounds (a * 100)) as [Hb1 Hb2].
  { destruct Hq as [Hq | Hq]; [left | right; split]; lra. }
  fold b in Hb1, Hb2.
  assert (Hup : b <= 100 * q + (1 # 17179869184) * q) by lra.
  assert (Hlo : 100 * q - (1 # 17179869184) * q <= b) by lra.
  split; [lra|]. split; [lra|]. split.
  - apply (Qmult_le_compat_r _ _ T) in Hup; [|lra].
    assert (E : (100 * q + (1 # 17179869184) * q) * T
                == 100 * D + (1 # 17179869184) * D).
    { rewrite <- HqT. ring. }
    rewrite E in Hup. lra.
  - apply (Qmult_le_compat_r _ _ T) in Hlo; [|lra].
    assert (E : (100 * q - (1 # 17179869184) * q) * T
                == 100 * D - (1 # 17179869184) * D).
    { rewrite <- HqT. ring. }
    rewrite E in Hlo. lra.
Qed.

Ltac push_inject :=
  unfold Z.sub;
  repeat (rewrite inject_Z_plus || rewrite inject_Z_mult || rewrite inject_Z_opp);
  change (inject_Z 2) with 2; change (inject_Z 100) with 100;
  change (inject_Z 1) with 1.

(** The percentage of [d] out of [t]: an integer from 0 to 100 with no
    integer nearer to [100 * d / t]. *)
Lemma health_of_nearest (t d : nat) :
  (d <= t)%nat -> (Z.of_nat t < 2 ^ 32)%Z ->
  let h := health_of t d in
  (0 <= h <= 100)%Z
  /\ (2 * Z.abs (h * Z.of_nat t - 100 * Z.of_nat d) <= Z.of_nat t)%Z.
Proof.
  intros Hdt Hlim h. unfold health_of in h.
  destruct (Nat.eqb t 0) eqn:Ht0.
  { apply Nat.eqb_eq in Ht0. subst t h. simpl. lia. }
  apply Nat.eqb_neq in Ht0.
  set (T := inject_Z (Z.of_nat t)) in *. set (D := inject_Z (Z.of_nat d)) in *.
  assert (HD : 0 <= D) by (unfold D; rewrite <- (Zle_Qle 0); lia).
  assert (HDT : D <= T) by (unfold D, T; rewrite <- Zle_Qle; lia).
  assert (HT1 : 1 <= T) by (unfold T; rewrite <- (Zle_Qle 1); lia).
  assert (HT2 : T <= 4294967296 # 1).
  { unfold T. change (4294967296 # 1) with (inject_Z 4294967296).
    rewrite <- Zle_Qle. change (2 ^ 32)%Z with 4294967296%Z in Hlim. lia. }
  assert (Hint : D == 0 \/ 1 <= D).
  { destruct d as [|d']; [left; reflexivity | right].
    unfold D. rewrite <- (Zle_Qle 1). lia. }
  destruct (percent_bounds D T HD HDT HT1 HT2 Hint) as (Hb0 & Hb100 & Hup & Hlo).
  set (b := fl (fl (D / T) * 100)) in *.
  unfold Math_round in h.
  pose proof (Qfloor_le (b + (1 # 2))) as Hfl.
  pose proof (Qlt_floor (b + (1 # 2))) as Hfu.
  fold h in Hfl, Hfu. rewrite inject_Z_plus in Hfu.
  change (inject_Z 1) with 1 in Hfu.
  set (Hq := inject_Z h) in *.
  split.
  - split.
    + change 0%Z with (Qfloor 0). apply Qfloor_resp_le. lra.
    + assert (Hlt : inject_Z h < inject_Z 101).
      { fold Hq. change (inject_Z 101) with (101 # 1). lra. }
      rewrite <- Zlt_Qlt in Hlt. lia.
  - assert (H1 : Hq * T <= b * T + (1 # 2) * T).
    { apply (Qmult_le_compat_r _ _ T) in Hfl; [|lra].
      assert (E : (b + (1 # 2)) * T == b * T + (1 # 2) * T) by ring.
      rewrite E in Hfl. exact Hfl. }
    assert (H2 : b * T + (1 # 2) * T < Hq * T + T).
    { assert (HTpos : 0 < T) by lra.
      apply (Qmult_lt_compat_r _ _ T HTpos) in Hfu.
      assert (E1 : (b + (1 # 2)) * T == b * T + (1 # 2) * T) by ring.
      assert (E2 : (Hq + 1) * T == Hq * T + T) by ring.
      rewrite E1, E2 in Hfu. exact Hfu. }
    assert (Hz1 : inject_Z (2 * (h * Z.of_nat t - 100 * Z.of_nat d))
                  < inject_Z (Z.of_nat t + 1)).
    { push_inject. fold T D Hq. lra. }
    assert (Hz2 : inject_Z (2 * (100 * Z.of_nat d - h * Z.of_nat t))
                  < inject_Z (Z.of_nat t + 1)).
    { push_inject. fold T D Hq. lra. }
    rewrite <- Zlt_Qlt in Hz1, Hz2. lia.
Qed.

End HealthBound.

(** The bound cannot be sharpened to "a tie goes up".  In binary64, 57
    finished tasks out of 200 make 28.499999999999996 rather than 28.5, and
    [Math.round] turns that into 28. *)
Module Binary64.
Import PrimFloat.

Definition percent (done totals : PrimFloat.float) : PrimFloat.float :=
  (done / totals * 100)%float.

Example percent_below_tie :
  (percent 57 200 <? 28.5)%float = true /\ (28 <=? percent 57 200)%float = true.
Proof. split; reflexivity. Qed.

End Binary64.

(** The length limit of a JavaScript array. *)
Definition arrayLimit : Z := 2 ^ 32.

(** *** Binary64 in rational arithmetic *)

From Stdlib Require Import Qpower.

(** Rounding to the nearest binary64 number, a tie going to the even
    mantissa, for the numbers in the normal range: the value is scaled to a
    mantissa between 2^52 and 2^53, the mantissa is rounded to an integer,
    and the result is scaled back. *)
Module Double.

Definition pow2 (e : Z) : Q := Qpower 2 e.

(** The exponent of a positive number: the largest [e] with [2^e <= x]. *)
Definition ilog2 (x : Q) : Z :=
  let k := Z.log2 (Qnum x) - Z.log2 (Zpos (Qden x)) in
  if Qle_bool (pow2 k) x then k else k - 1.

(** The weight of the last mantissa bit, [2^(e - 52)]. *)
Definition ulp (x : Q) : Q := (pow2 (ilog2 x) * (1 # 4503599627370496))%Q.

Definition nearestEven (y : Q) : Z :=
  let f := Qfloor y in
  match Qcompare (y - inject_Z f) (1 # 2) with
  | Lt => f
  | Gt => f + 1
  | Eq => if Z.even f then f else f + 1
  end.

Definition roundPos (x : Q) : Q :=
  (inject_Z (nearestEven (x / ulp x)) * ulp x)%Q.

Definition round (x : Q) : Q :=
  match Qnum x with
  | Z0 => 0%Q
  | Zpos _ => roundPos x
  | Zneg _ => (- roundPos (- x))%Q
  end.

Lemma pow2_pos e : (0 < pow2 e)%Q.
Proof. apply Qpower_0_lt. reflexivity. Qed.

Lemma ilog2_le x : (0 < x)%Q -> (pow2 (ilog2 x) <= x)%Q.
Proof.
  intros Hx. unfold ilog2.
  destruct (Qle_bool _ x) eqn:E; [apply Qle_bool_imp_le, E|]. clear E.
  destruct x as [n d]. cbn [Qnum Qden].
  assert (Hn : 0 < n) by (unfold Qlt in Hx; simpl in Hx; lia).
  set (a := Z.log2 n). set (b := Z.log2 (Z.pos d)).
  assert (Ha : 0 <= a) by apply Z.log2_nonneg.
  assert (Hb : 0 <= b) by apply Z.log2_nonneg.
  destruct (Z.log2_spec n Hn) as [Hn1 _]. fold a in Hn1.
  destruct (Z.log2_spec (Z.pos d) (Pos2Z.is_pos d)) as [_ Hd2]. fold b in Hd2.
  replace (a - b - 1) with (a - (b + 1)) by lia.
  unfold pow2. rewrite Qpower_minus by discriminate.
  assert (EA : (2 ^ a == inject_Z (2 ^ a))%Q)
    by (symmetry; apply (Zpower_Qpower 2 a Ha)).
  assert (EB : (2 ^ (b + 1) == inject_Z (2 ^ (b + 1)))%Q)
    by (symmetry; apply (Zpower_Qpower 2 (b + 1)); lia).
  rewrite EA, EB.
  assert (HB : 0 < 2 ^ (b + 1)) by (apply Z.pow_pos_nonneg; lia).
  apply Qle_shift_div_r.
  - rewrite <- (Zlt_Qlt 0). exact HB.
  - replace (Z.succ b) with (b + 1) in Hd2 by lia.
    unfold Qle, Qmult, inject_Z; simpl. nia.
Qed.

Lemma nearestEven_close y :
  (inject_Z (nearestEven y) - (1 # 2) <= y
   /\ y <= inject_Z (nearestEven y) + (1 # 2))%Q.
Proof.
  unfold nearestEven.
  pose proof (Qfloor_le y) as Hlo. pose proof (Qlt_floor y) as Hhi.
  rewrite inject_Z_plus in Hhi. change (inject_Z 1) with 1%Q in Hhi.
  set (f := Qfloor y) in *.
  assert (Hnext : (inject_Z (f + 1) == inject_Z f + 1)%Q)
    by (rewrite inject_Z_plus; reflexivity).
  destruct (Qcompare_spec (y - inject_Z f) (1 # 2)) as [E|E|E].
  - destruct (Z.even f); rewrite ?Hnext; split; lra.
  - split; lra.
  - rewrite Hnext. split; lra.
Qed.

(** The relative error of the rounding is at most 2^-53. *)
Lemma roundPos_error x :
  (0 < x)%Q -> (Qabs (roundPos x - x) <= x * ulp_half)%Q.
Proof.
  intros Hx. unfold roundPos.
  pose proof (ilog2_le x Hx) as Hlog. pose proof (pow2_pos (ilog2 x)) as Hpow.
  unfold ulp. set (P := pow2 (ilog2 x)) in *.
  set (p := (P * (1 # 4503599627370496))%Q).
  assert (Hp : (0 < p)%Q) by (unfold p; lra).
  destruct (nearestEven_close (x / p)) as [Hlo Hhi].
  set (m := inject_Z (nearestEven (x / p))) in *.
  assert (Hy : (x / p * p == x)%Q) by (field; lra).
  apply (Qmult_le_compat_r _ _ p) in Hlo; [|lra].
  apply (Qmult_le_compat_r _ _ p) in Hhi; [|lra].
  rewrite Hy in Hlo, Hhi.
  assert (E1 : ((m - (1 # 2)) * p == m * p - (1 # 2) * p)%Q) by ring.
  assert (E2 : ((m + (1 # 2)) * p == m * p + (1 # 2) * p)%Q) by ring.
  rewrite E1 in Hlo. rewrite E2 in Hhi.
  apply Qabs_Qle_condition. change ulp_half with (1 # 9007199254740992).
  unfold p in *. split; lra.
Qed.

#[export] Instance float64 : Float64.
Proof.
  refine {| fl := round |}.
  intros x Hx.
  assert (Hcases : Qnum x = 0 \/ (0 < x)%Q).
  { destruct Hx as [H0 | [Hlo _]].
    - left. unfold Qeq in H0; simpl in H0. lia.
    - right. eapply Qlt_le_trans; [|exact Hlo]. reflexivity. }
  destruct Hcases as [H0 | Hpos].
  - unfold round. rewrite H0. destruct x as [n d]; simpl in H0; subst n.
    unfold Qle; simpl. lia.
  - unfold round. destruct x as [n d].
    assert (Hn : 0 < n) by (unfold Qlt in Hpos; simpl in Hpos; lia).
    destruct n as [|n|n]; try lia. cbn [Qnum].
    apply roundPos_error. exact Hpos.
Defined.

(** The quotient 57 / 200 and the product of its binary64 value with 100,
    as binary64 has them: mantissa 5134103575202365 at exponent -54, and
    mantissa 8022036836253695 at exponent -48, just below 28.5. *)
Example quotient_57_of_200 :
  (round (57 # 200) == 5134103575202365 # 18014398509481984)%Q.
Proof. reflexivity. Qed.

Example percent_57_of_200 :
  (round (round (57 # 200) * 100) == 8022036836253695 # 281474976710656)%Q
  /\ (round (round (57 # 200) * 100) < 57 # 2)%Q.
Proof. split; reflexivity. Qed.

(** A tie that binary64 represents exactly goes up: 1 of 8 is 12.5. *)
Example percent_1_of_8 : (round (round (1 # 8) * 100) == 25 # 2)%Q.
Proof. reflexivity. Qed.

End Double.

(** The primitive binary64 numbers of the proof assistant give the same
    mantissa and exponent for the product. *)
From Stdlib Require FloatOps.

Module Binary64Check.
Import PrimFloat.

Example percent_57_of_200_primitive :
  FloatOps.Prim2SF (Binary64.percent 57 200)
  = SpecFloat.S754_finite false 8022036836253695 (-48).
Proof. reflexivity. Qed.

End Binary64Check.

(** The exact percentage, [done / totals * 100] without rounding error. *)
Definition exactPercent (done totals : nat) : Q :=
  (inject_Z (Z.of_nat done) / inject_Z (Z.of_nat totals) * 100)%Q.

(** An integer with no integer nearer to the exact percentage is the exact
    percentage rounded half up, or one below it when the exact percentage
    lies halfway between the two. *)
Lemma nearest_is_round_or_one_below (t d : nat) (h : Z) :
  (0 < t)%nat ->
  2 * Z.abs (h * Z.of_nat t - 100 * Z.of_nat d) <= Z.of_nat t ->
  h = Math_round (exactPercent d t)
  \/ (h = Math_round (exactPercent d t) - 1
      /\ (exactPercent d t + (1 # 2) == inject_Z (Math_round (exactPercent d t)))%Q).
Proof.
  intros Ht Hnear. unfold Math_round, exactPercent.
  set (T := inject_Z (Z.of_nat t)). set (D := inject_Z (Z.of_nat d)).
  set (X := (D / T * 100)%Q).
  assert (HT : (0 < T)%Q) by (unfold T; rewrite <- (Zlt_Qlt 0); lia).
  assert (HX : (X * T == 100 * D)%Q) by (unfold X; field; lra).
  pose proof (Qfloor_le (X + (1 # 2))) as Hlo.
  pose proof (Qlt_floor (X + (1 # 2))) as Hhi.
  rewrite inject_Z_plus in Hhi. change (inject_Z 1) with 1%Q in Hhi.
  set (r := Qfloor (X + (1 # 2))) in *.
  assert (Hz1 : (inject_Z (2 * (h * Z.of_nat t - 100 * Z.of_nat d))
                 <= inject_Z (Z.of_nat t))%Q) by (rewrite <- Zle_Qle; lia).
  assert (Hz2 : (inject_Z (2 * (100 * Z.of_nat d - h * Z.of_nat t))
                 <= inject_Z (Z.of_nat t))%Q) by (rewrite <- Zle_Qle; lia).
  unfold Z.sub in Hz1, Hz2.
  repeat (rewrite inject_Z_plus in Hz1 || rewrite inject_Z_mult in Hz1
          || rewrite inject_Z_opp in Hz1).
  repeat (rewrite inject_Z_plus in Hz2 || rewrite inject_Z_mult in Hz2
          || rewrite inject_Z_opp in Hz2).
  change (inject_Z 2) with 2%Q in Hz1, Hz2.
  change (inject_Z 100) with 100%Q in Hz1, Hz2.
  fold T D in Hz1, Hz2. set (H := inject_Z h) in *.
  assert (Hup : (H <= X + (1 # 2))%Q).
  { apply (Qmult_le_r _ _ T HT).
    assert (E : ((X + (1 # 2)) * T == X * T + (1 # 2) * T)%Q) by ring.
    rewrite E, HX. lra. }
  assert (Hdown : (X - (1 # 2) <= H)%Q).
  { apply (Qmult_le_r _ _ T HT).
    assert (E : ((X - (1 # 2)) * T == X * T - (1 # 2) * T)%Q) by ring.
    rewrite E, HX. lra. }
  assert (Hle : h <= r).
  { assert (Hlt : (inject_Z h < inject_Z (r + 1))%Q).
    { rewrite inject_Z_plus. change (inject_Z 1) with 1%Q. fold H. lra. }
    rewrite <- Zlt_Qlt in Hlt. lia. }
  assert (Hge : r - 1 <= h).
  { assert (Hq : (inject_Z (r + -1) <= inject_Z h)%Q).
    { rewrite inject_Z_plus. change (inject_Z (-1)) with (-1 # 1)%Q. fold H. lra. }
    rewrite <- Zle_Qle in Hq. lia. }
  destruct (Z.eq_dec h r) as [E|E]; [left; exact E | right].
  assert (Hh : h = r - 1) by lia. split; [exact Hh|].
  apply Qle_antisym; [|exact Hlo].
  assert (EH : (H == inject_Z r - 1)%Q).
  { unfold H. rewrite Hh. unfold Z.sub. rewrite inject_Z_plus. reflexivity. }
  lra.
Qed.


(** Two hundred tasks with different identifiers, the first 57 of them
    done. *)
Definition tasks200 : list Task :=
  map (fun i => mkTask (String (ascii_of_nat i) EmptyString) "Task" None
                       (if (i <? 57)%nat then Done else Backlog) Medium None []
                       "2024-03-01T09:00:00.000Z")
      (seq 0 200).

Definition stats200 : Stats :=
  stats (dates := UtcCalendar.dateFns) (collation := CodeUnits.collation)
        (numbers := Double.float64) None tasks200.


(** Two finished tasks out of three. *)
Definition twoOfThree : list Task :=
  [jan; feb; mkTask "4" "Draft agenda" None Backlog High None [] ""].

Definition twoOfThreeStats : Stats :=
  stats (dates := UtcCalendar.dateFns) (collation := CodeUnits.collation)
        (numbers := Exact.float64) None twoOfThree.

(** With exact arithmetic that is 67 percent. *)
Example health_two_of_three : health twoOfThreeStats = 67.
Proof. reflexivity. Qed.


(** ** Task store *)

Lemma lookup_map {A B} (f : A -> B) (l : list A) (k : nat) :
  map f l !! k = f <$> (l !! k).
Proof.
  revert k. induction l as [|x l IH]; intros [|k]; simpl; try reflexivity. apply IH.
Qed.

Lemma map_unchanged {A} (f : A -> A) (l : list A) :
  Forall (fun x => f x = x) l -> map f l = l.
Proof. induction 1 as [|x l Hx _ IH]; simpl; [reflexivity | rewrite Hx, IH; reflexivity]. Qed.

(** [handleAddTask] with a title that is not blank: the new task goes in
    front of the list, carrying the generated identifier, the time stamp and
    the trimmed title, and the form is reset. *)
Lemma handleAddTask_prepends uuid stamp st rawTitle :
  p_title (draft st) = Some rawTitle ->
  blank rawTitle = false ->
  exists task,
    handleAddTask uuid stamp st
    = {| tasks := task :: tasks st; draft := blankDraft; draftTags := EmptyString |}
    /\ id task = uuid
    /\ createdAt task = stamp
    /\ title task = Str.trim rawTitle
    /\ tags task = tagList rawTitle (draftTags st)
    /\ dueDate task = (match read_opt (p_dueDate (draft st)) with
                       | Some d => if Str.truthy d then Some d else None
                       | None => None
                       end).
Proof.
  intros Ht Hb. unfold handleAddTask. rewrite Ht.
  destruct (Str.truthy (Str.trim rawTitle)) eqn:Htr.
  - simpl. eexists. split; [reflexivity|]. repeat split.
  - apply truthy_false, trim_blank in Htr. congruence.
Qed.

(** C8: a create whose title is missing or blank returns the state as it
    was, and a delete, update, advance or retreat aimed at an identifier that
    no task carries returns the very same list.  None of the four can
    fail. *)
Theorem C8_invalid_inputs_leave_the_state_unchanged :
  (forall uuid stamp st,
      (forall rawTitle, p_title (draft st) = Some rawTitle -> blank rawTitle = true) ->
      handleAddTask uuid stamp st = st)
  /\ (forall i L,
        Forall (fun t => id t <> i) L ->
        handleDelete i L = L
        /\ (forall changes, updateTask i changes L = L)
        /\ (forall direction, toggleStatus i direction L = L)).
Proof.
  split.
  - intros uuid stamp st Hblank. unfold handleAddTask.
    destruct (p_title (draft st)) as [rawTitle|]; [|reflexivity].
    specialize (Hblank rawTitle eq_refl). apply trim_blank in Hblank.
    rewrite Hblank. reflexivity.
  - intros i L Habsent. split; [|split].
    + unfold handleDelete. apply filter_everything. exact Habsent.
    + intros changes. unfold updateTask. apply map_unchanged.
      eapply Forall_impl; [exact Habsent|]. intros t Ht.
      destruct (decide (id t = i)); [contradiction | reflexivity].
    + intros direction. unfold toggleStatus. apply map_unchanged.
      eapply Forall_impl; [exact Habsent|]. intros t Ht.
      destruct (decide (id t <> i)); [reflexivity | contradiction].
Qed.

(** A form left with three spaces in the title field, and an identifier
    that no task of the scenario list carries. *)
Definition blankTitleForm : AppState :=
  {| tasks := [jan; feb];
     draft := mkPartial None (Some "   "%string) None None None None None None;
     draftTags := "ops" |}.

Lemma C8_blank_title_and_unknown_id :
  handleAddTask "u-1" "2024-03-01T00:00:00.000Z" blankTitleForm = blankTitleForm
  /\ handleDelete "9" [jan; feb; undated] = [jan; feb; undated]
  /\ (forall changes, updateTask "9" changes [jan; feb; undated] = [jan; feb; undated])
  /\ (forall direction,
        toggleStatus "9" direction [jan; feb; undated] = [jan; feb; undated]).
Proof.
  split.
  - apply (proj1 C8_invalid_inputs_leave_the_state_unchanged).
    intros rawTitle [= <-]. reflexivity.
  - apply (proj2 C8_invalid_inputs_leave_the_state_unchanged).
    repeat constructor; discriminate.
Defined.

(** Every field except the status is the same in both tasks. *)
Definition same_but_status (t t' : Task) : Prop :=
  id t' = id t /\ title t' = title t /\ description t' = description t
  /\ priority t' = priority t /\ dueDate t' = dueDate t /\ tags t' = tags t
  /\ createdAt t' = createdAt t.

(** A field after a merge: the supplied value when the change has the key,
    the old value when it has not. *)
Definition supplied {A} (change : option A) (old new : A) : Prop :=
  match change with
  | Some v => new = v
  | None => new = old
  end.

Definition only_supplied (changes : PartialTask) (t t' : Task) : Prop :=
  supplied (p_id changes) (id t) (id t')
  /\ supplied (p_title changes) (title t) (title t')
  /\ supplied (p_description changes) (description t) (description t')
  /\ supplied (p_status changes) (status t) (status t')
  /\ supplied (p_priority changes) (priority t) (priority t')
  /\ supplied (p_dueDate changes) (dueDate t) (dueDate t')
  /\ supplied (p_tags changes) (tags t) (tags t')
  /\ supplied (p_createdAt changes) (createdAt t) (createdAt t').

Lemma merge_only_supplied changes t : only_supplied changes t (merge t changes).
Proof.
  destruct changes as [[?|] [?|] [?|] [?|] [?|] [?|] [?|] [?|]];
    repeat split.
Qed.

(** C9: advance and retreat keep the length of the list and, position by
    position, return a task that differs from the one that was there in its
    status at most; a task with another identifier is returned as it was,
    and one with the given identifier has its status moved by one step.
    Update keeps the length as well, returns every task with another
    identifier as it was, and in a task with the given identifier sets the
    supplied fields and keeps the others. *)
Theorem C9_mutations_touch_only_the_named_task :
  (forall i direction L,
      length (toggleStatus i direction L) = length L
      /\ forall k t, L !! k = Some t ->
           exists t', toggleStatus i direction L !! k = Some t'
                      /\ same_but_status t t'
                      /\ (id t <> i -> t' = t)
                      /\ (id t = i -> status t' = step direction (status t)))
  /\ (forall i changes L,
        length (updateTask i changes L) = length L
        /\ forall k t, L !! k = Some t ->
             exists t', updateTask i changes L !! k = Some t'
                        /\ (id t <> i -> t' = t)
                        /\ (id t = i -> only_supplied changes t t')).
Proof.
  split.
  - intros i direction L. split.
    + unfold toggleStatus. apply length_map.
    + intros k t Hk. unfold toggleStatus. rewrite lookup_map, Hk. simpl.
      eexists. split; [reflexivity|].
      destruct (decide (id t <> i)) as [Hne | Heq].
      * split; [repeat split|]. split; [reflexivity | intros Heq; contradiction].
      * split; [repeat split|]. split; [intros Hne; contradiction|].
        intros _. destruct direction; reflexivity.
  - intros i changes L. split.
    + unfold updateTask. apply length_map.
    + intros k t Hk. unfold updateTask. rewrite lookup_map, Hk. simpl.
      eexists. split; [reflexivity|].
      destruct (decide (id t = i)) as [Heq | Hne].
      * split; [intros Hne; contradiction|]. intros _. apply merge_only_supplied.
      * split; [reflexivity|]. intros Heq. contradiction.
Qed.

(** Retreating task 2 of the scenario list: position 1 changes, in its
    status only. *)
Lemma C9_retreat_second_task :
  exists t', toggleStatus "2" Backward [jan; feb; undated] !! 1%nat = Some t'
             /\ same_but_status feb t'
             /\ (id feb <> "2"%string -> t' = feb)
             /\ (id feb = "2"%string -> status t' = step Backward (status feb)).
Proof.
  apply (proj2 (proj1 C9_mutations_touch_only_the_named_task
                  "2"%string Backward [jan; feb; undated]) 1%nat feb).
  reflexivity.
Defined.

(** ** Creating a task *)

(** The filters [F] with another horizon. *)
Definition with_horizon (h : Horizon) (F : Filters) : Filters :=
  {| f_query := f_query F; f_status := f_status F; f_priority := f_priority F;
     f_horizon := h |}.

Lemma keep_without_due {dates : DateFns} now F h t :
  due_of t = None -> keep now (with_horizon h F) t = keep now (with_horizon HorizonAll F) t.
Proof.
  intros Hd. unfold keep; simpl. rewrite Hd. destruct h; reflexivity.
Qed.

Lemma overdue_cons {dates : DateFns} {collation : Collation} {numbers : Float64}
    now t L :
  overdue (stats now (t :: L))
  = ((if is_overdue now t then 1 else 0) + overdue (stats now L))%nat.
Proof.
  unfold stats; simpl. rewrite filter_cons.
  destruct (is_overdue now t); reflexivity.
Qed.

(** C10: a task created while the due-date field holds the empty string is
    stored without due date, not with an empty one.  It therefore adds
    nothing to the [overdue] count, and whatever the other filters are, the
    [today] and [overdue] horizons keep it exactly when no horizon would. *)
Theorem C10_empty_due_date_is_stored_as_absent
    {dates : DateFns} {collation : Collation} {numbers : Float64} :
  forall uuid stamp st rawTitle,
    p_title (draft st) = Some rawTitle ->
    blank rawTitle = false ->
    p_dueDate (draft st) = Some (Some EmptyString) ->
    exists task,
      tasks (handleAddTask uuid stamp st) = task :: tasks st
      /\ dueDate task = None
      /\ forall now,
           overdue (stats now (tasks (handleAddTask uuid stamp st)))
           = overdue (stats now (tasks st))
           /\ forall F h,
                keep now (with_horizon h F) task
                = keep now (with_horizon HorizonAll F) task.
Proof.
  intros uuid stamp st rawTitle Ht Hb Hdue.
  destruct (handleAddTask_prepends uuid stamp st rawTitle Ht Hb)
    as (task & -> & _ & _ & _ & _ & Hd).
  rewrite Hdue in Hd. simpl in Hd.
  assert (Hnone : due_of task = None) by (unfold due_of; rewrite Hd; reflexivity).
  exists task. split; [reflexivity|]. split; [exact Hd|].
  intros now. split.
  - cbn [tasks]. rewrite overdue_cons. unfold is_overdue. rewrite Hnone. reflexivity.
  - intros F h. apply keep_without_due. exact Hnone.
Qed.

(** A form with only the title filled in, on top of a one-task list. *)
Definition vendorForm : AppState :=
  {| tasks := [jan];
     draft := mkPartial None (Some "Call vendor"%string) (Some (Some EmptyString))
                        (Some Backlog) (Some Medium) (Some (Some EmptyString))
                        (Some []) None;
     draftTags := EmptyString |}.

Lemma C10_vendor_task_has_no_due_date :
  exists task,
    tasks (handleAddTask "u-1" "2024-03-01T09:00:00.000Z" vendorForm)
    = task :: tasks vendorForm
    /\ dueDate task = None
    /\ forall now,
         overdue (stats (dates := UtcCalendar.dateFns)
                        (collation := CodeUnits.collation)
                        (numbers := Exact.float64) now
                        (tasks (handleAddTask "u-1" "2024-03-01T09:00:00.000Z"
                                              vendorForm)))
         = overdue (stats (dates := UtcCalendar.dateFns)
                          (collation := CodeUnits.collation)
                          (numbers := Exact.float64) now (tasks vendorForm))
         /\ forall F h,
              keep (dates := UtcCalendar.dateFns) now (with_horizon h F) task
              = keep (dates := UtcCalendar.dateFns) now
                     (with_horizon HorizonAll F) task.
Proof.
  apply (C10_empty_due_date_is_stored_as_absent
           (dates := UtcCalendar.dateFns) (collation := CodeUnits.collation)
           (numbers := Exact.float64)
           "u-1"%string "2024-03-01T09:00:00.000Z"%string vendorForm
           "Call vendor"%string);
    reflexivity.
Defined.

(** With a blank tag field the tags come from the first two space-separated
    pieces of the title as typed, stripped to letters and digits, the empty
    ones dropped: two tags at most. *)
Lemma auto_tags_at_most_two rawTitle rawTags :
  blank rawTags = true ->
  tagList rawTitle rawTags
  = nonEmpty (map Str.stripNonAlnum (take 2 (Str.split " " rawTitle)))
  /\ (length (tagList rawTitle rawTags) <= 2)%nat.
Proof.
  intros Hb. apply trim_blank in Hb. unfold tagList. rewrite Hb. simpl.
  split; [reflexivity|]. unfold nonEmpty.
  etransitivity; [apply List.filter_length_le|].
  rewrite length_map, length_take. lia.
Qed.

(** The form of the scenario: the title typed with two spaces on either
    side, every other field as the form starts out. *)
Definition planLaunchForm (prev : list Task) : AppState :=
  {| tasks := prev;
     draft := mkPartial None (Some "  Plan launch  "%string) (Some (Some EmptyString))
                        (Some Backlog) (Some Medium) (Some (Some EmptyString))
                        (Some []) None;
     draftTags := EmptyString |}.

(** C2, at the scenario's input: the task is added in front with the
    generated identifier, the time stamp and the title ["Plan launch"], but
    its tag list is empty.  The tags are cut from the title as typed, whose
    first two space-separated pieces are empty here; the trimmed title would
    have given [Plan] and [launch]. *)
Theorem C2_plan_launch_is_stored_without_tags :
  forall uuid stamp prev,
    handleAddTask uuid stamp (planLaunchForm prev)
    = {| tasks := mkTask uuid "Plan launch" (Some EmptyString) Backlog Medium
                         None [] stamp :: prev;
         draft := blankDraft;
         draftTags := EmptyString |}
    /\ take 2 (Str.split " " "  Plan launch  ") = [EmptyString; EmptyString]
    /\ tagList "  Plan launch  " EmptyString = []
    /\ tagList "Plan launch" EmptyString = ["Plan"%string; "launch"%string].
Proof. intros uuid stamp prev. repeat split. Qed.


(** * The rest of the component

    What the dashboard does with the engines and the store: the due label of
    a task card, the click that removes a tag, the columns and counters of
    the board, and the persistent state cell. *)

From stdpp Require gmap.

(** ** Task card *)

(** [format] of date-fns.  It throws a [RangeError] for a date it cannot
    print, an invalid one above all: [None] here. *)
Class DateFormat {dates : DateFns} := {
  format : Date -> string -> option string;
}.

Record DueState := mkDueState {
  label : string;
  tone : string;
}.

(** The middle dot of the card labels, U+00B7, between two spaces. *)
Definition middot : string := String " " (String "183" (String " " EmptyString)).

(** The [dueState] memo of [TaskCard].  [None] is the card that fails to
    render because [format] threw. *)
Definition dueState {dates : DateFns} {fmt : DateFormat} (now : Date) (task : Task)
  : option DueState :=
  match due_of task with
  | None => Some {| label := "No due date"; tone := "text-slate-400" |}
  | Some d =>
      let due := parseISO d in
      if (isBefore due now && negb (is_done task))%bool
      then printed ← format due "MMM d";
           Some {| label := "Overdue" +:+ middot +:+ printed;
                   tone := "text-rose-400" |}
      else if isToday now due
      then printed ← format due "p";
           Some {| label := "Due today" +:+ middot +:+ printed;
                   tone := "text-amber-400" |}
      else printed ← format due "MMM d";
           Some {| label := "Due " +:+ printed; tone := "text-slate-300" |}
  end.

(** The click on a tag chip of the card that shows [task]:
    [onUpdate(task.id, { tags: task.tags.filter(existing => existing !== tag) })]. *)
Definition removeTag (task : Task) (tag : string) (prev : list Task) : list Task :=
  updateTask (id task)
    {| p_id := None; p_title := None; p_description := None; p_status := None;
       p_priority := None; p_dueDate := None;
       p_tags := Some (filter (fun existing => existing <> tag) (tags task));
       p_createdAt := None |}
    prev.

(** ** Board *)

(** The cards of one column: [filteredTasks.filter(task => task.status === status)]. *)
Definition column {dates : DateFns} (now : Date) (tasks : list Task)
    (filters : Filters) (s : Status) : list Task :=
  filter (fun task => status task = s) (filteredTasks now tasks filters).

(** The two numbers of a status summary card, [count] and [total]. *)
Definition summary {dates : DateFns} (now : Date) (tasks : list Task)
    (filters : Filters) (statusKey : Status) : nat * nat :=
  (length (filter (fun task => status task = statusKey)
                  (filteredTasks now tasks filters)),
   length (filter (fun task => status task = statusKey) tasks)).

(** The "active" figure of the header, [stats.totals - stats.done]. *)
Definition active (s : Stats) : Z := Z.of_nat (totals s) - Z.of_nat (done s).

(** * Further properties *)

(** ** Deleting *)

Lemma handleDelete_length i L :
  (length (handleDelete i L) + length (filter (fun t => id t = i) L))%nat = length L.
Proof.
  unfold handleDelete. induction L as [|t L IH]; [reflexivity|].
  rewrite !filter_cons.
  destruct (decide (id t <> i)), (decide (id t = i)); simpl; try lia; tauto.
Qed.

(** X1: [handleDelete] removes every task that carries the identifier and
    nothing else; the tasks that stay keep their order, their number and the
    number of removed tasks add up to the old length, and deleting the same
    identifier again changes nothing. *)
Theorem X1_delete_removes_exactly_the_named_tasks :
  forall i L,
    (forall t, t ∈ handleDelete i L <-> t ∈ L /\ id t <> i)
    /\ handleDelete i L `sublist_of` L
    /\ (length (handleDelete i L) + length (filter (fun t => id t = i) L))%nat
       = length L
    /\ handleDelete i (handleDelete i L) = handleDelete i L.
Proof.
  intros i L. split; [|split; [|split]].
  - intros t. unfold handleDelete. rewrite list_elem_of_filter. tauto.
  - apply sublist_filter.
  - apply handleDelete_length.
  - unfold handleDelete at 1. apply filter_everything, Forall_forall.
    intros t Ht. unfold handleDelete in Ht. apply list_elem_of_filter in Ht. tauto.
Qed.

(** ** Creating *)

(** X2: a task that was just created is taken out again by deleting its
    identifier, and the list is back to what it was, as long as the
    identifier was new to the list. *)
Theorem X2_delete_undoes_create :
  forall uuid stamp st rawTitle,
    p_title (draft st) = Some rawTitle ->
    blank rawTitle = false ->
    Forall (fun t => id t <> uuid) (tasks st) ->
    length (tasks (handleAddTask uuid stamp st)) = S (length (tasks st))
    /\ handleDelete uuid (tasks (handleAddTask uuid stamp st)) = tasks st.
Proof.
  intros uuid stamp st rawTitle Ht Hb Hfresh.
  destruct (handleAddTask_prepends uuid stamp st rawTitle Ht Hb)
    as (task & -> & Hid & _).
  cbn [tasks]. split; [reflexivity|].
  unfold handleDelete. rewrite filter_cons_False by (rewrite Hid; tauto).
  apply filter_everything. exact Hfresh.
Qed.

Lemma X2_vendor_task_deleted_again :
  length (tasks (handleAddTask "u-1" "2024-03-01T09:00:00.000Z" vendorForm))
  = S (length (tasks vendorForm))
  /\ handleDelete "u-1" (tasks (handleAddTask "u-1" "2024-03-01T09:00:00.000Z"
                                              vendorForm))
     = tasks vendorForm.
Proof.
  apply (X2_delete_undoes_create "u-1"%string "2024-03-01T09:00:00.000Z"%string
           vendorForm "Call vendor"%string).
  - reflexivity.
  - reflexivity.
  - repeat constructor; discriminate.
Defined.

(** X3: a task is added at most once per filled form.  [handleAddTask]
    leaves the form blank, so running it again straight away, with whatever
    identifier and time stamp, changes nothing. *)
Theorem X3_second_submit_adds_nothing :
  forall uuid1 stamp1 uuid2 stamp2 st,
    handleAddTask uuid2 stamp2 (handleAddTask uuid1 stamp1 st)
    = handleAddTask uuid1 stamp1 st.
Proof.
  intros uuid1 stamp1 uuid2 stamp2 st.
  unfold handleAddTask at 2 3.
  destruct (p_title (draft st)) as [rawTitle|] eqn:Ht.
  - destruct (negb (Str.truthy (Str.trim rawTitle))) eqn:Hg.
    + unfold handleAddTask. rewrite Ht, Hg. reflexivity.
    + reflexivity.
  - unfold handleAddTask. rewrite Ht. reflexivity.
Qed.

(** ** Trimming *)

(** A string that does not start with white space. *)
Definition headOk (s : string) : bool :=
  match s with
  | EmptyString => true
  | String c _ => negb (Str.isSpace c)
  end.

Lemma trimStart_headOk s : headOk (Str.trimStart s) = true.
Proof.
  induction s as [|c s IH]; simpl; [reflexivity|].
  destruct (Str.isSpace c) eqn:E; [exact IH | simpl; rewrite E; reflexivity].
Qed.

Lemma trimStart_fixed s : headOk s = true -> Str.trimStart s = s.
Proof.
  destruct s as [|c s]; simpl; [reflexivity|].
  destruct (Str.isSpace c); [discriminate | reflexivity].
Qed.

Lemma trimEnd_headOk s : headOk s = true -> headOk (Str.trimEnd s) = true.
Proof.
  destruct s as [|c s]; simpl; [reflexivity|]. intros Hc.
  destruct (Str.trimEnd s); simpl; [|exact Hc].
  destruct (Str.isSpace c) eqn:E; [discriminate|]. simpl. rewrite E. reflexivity.
Qed.

Lemma trimEnd_idem s : Str.trimEnd (Str.trimEnd s) = Str.trimEnd s.
Proof.
  induction s as [|c s IH]; simpl; [reflexivity|].
  destruct (Str.trimEnd s) as [|c' r] eqn:E.
  - destruct (Str.isSpace c) eqn:Hc; simpl; [reflexivity | rewrite Hc; reflexivity].
  - simpl in *. rewrite IH. reflexivity.
Qed.

(** Trimming a trimmed string changes nothing. *)
Lemma trim_idem s : Str.trim (Str.trim s) = Str.trim s.
Proof.
  unfold Str.trim.
  rewrite (trimStart_fixed (Str.trimEnd (Str.trimStart s))).
  - apply trimEnd_idem.
  - apply trimEnd_headOk, trimStart_headOk.
Qed.

(** ** Invariants of the store *)

Lemma ids_toggleStatus i direction L :
  map id (toggleStatus i direction L) = map id L.
Proof.
  induction L as [|t L IH]; [reflexivity|].
  rewrite toggleStatus_cons. simpl. rewrite IH.
  destruct (decide (id t = i)); reflexivity.
Qed.

Lemma ids_updateTask i changes L :
  p_id changes = None -> map id (updateTask i changes L) = map id L.
Proof.
  intros Hc. unfold updateTask. induction L as [|t L IH]; [reflexivity|].
  simpl. rewrite IH. destruct (decide (id t = i)); [|reflexivity].
  simpl. rewrite Hc. reflexivity.
Qed.

Lemma ids_handleDelete i L :
  map id (handleDelete i L) `sublist_of` map id L.
Proof.
  unfold handleDelete. induction L as [|t L IH]; [constructor|].
  rewrite filter_cons. destruct (decide (id t <> i)); simpl.
  - apply sublist_skip. exact IH.
  - apply sublist_cons. exact IH.
Qed.

(** X4: the identifiers of the list stay pairwise different.  Deleting,
    advancing and retreating keep them so; an update does when it leaves the
    identifier alone; a create does when the generated identifier is not in
    the list yet. *)
Theorem X4_identifiers_stay_unique :
  forall L,
    NoDup (map id L) ->
    (forall i, NoDup (map id (handleDelete i L)))
    /\ (forall i direction, NoDup (map id (toggleStatus i direction L)))
    /\ (forall i changes,
          p_id changes = None -> NoDup (map id (updateTask i changes L)))
    /\ (forall uuid stamp d dt,
          Forall (fun t => id t <> uuid) L ->
          NoDup (map id (tasks (handleAddTask uuid stamp (mkState L d dt))))).
Proof.
  intros L Hnd. split; [|split; [|split]].
  - intros i. eapply sublist_NoDup; [exact Hnd | apply ids_handleDelete].
  - intros i direction. rewrite ids_toggleStatus. exact Hnd.
  - intros i changes Hc. rewrite ids_updateTask by exact Hc. exact Hnd.
  - intros uuid stamp d dt Hfresh. unfold handleAddTask; cbn [draft tasks draftTags].
    destruct (p_title d) as [rawTitle|]; [|exact Hnd].
    destruct (negb (Str.truthy (Str.trim rawTitle))); [exact Hnd|].
    cbn [tasks map id]. apply NoDup_cons. split; [|exact Hnd].
    intros Hin. apply list_elem_of_In, in_map_iff in Hin as (t & Hid & Ht).
    apply list_elem_of_In in Ht.
    rewrite Forall_forall in Hfresh. apply (Hfresh t Ht). exact Hid.
Qed.

Lemma X4_scenario_list_stays_unique :
  (forall i, NoDup (map id (handleDelete i [jan; feb; undated])))
  /\ (forall i direction, NoDup (map id (toggleStatus i direction [jan; feb; undated])))
  /\ (forall i changes,
        p_id changes = None -> NoDup (map id (updateTask i changes [jan; feb; undated])))
  /\ (forall uuid stamp d dt,
        Forall (fun t => id t <> uuid) [jan; feb; undated] ->
        NoDup (map id (tasks (handleAddTask uuid stamp
                                (mkState [jan; feb; undated] d dt))))).
Proof.
  apply (X4_identifiers_stay_unique [jan; feb; undated]).
  apply (bool_decide_unpack _). vm_compute. exact I.
Defined.

(** A task whose title is not empty and carries no white space around it. *)
Definition titled (t : Task) : Prop :=
  title t <> EmptyString /\ Str.trim (title t) = title t.

Lemma titled_toggleStatus i direction L :
  Forall titled L -> Forall titled (toggleStatus i direction L).
Proof.
  induction 1 as [|t L Ht _ IH]; [constructor|].
  rewrite toggleStatus_cons. constructor; [|exact IH].
  destruct (decide (id t = i)); exact Ht.
Qed.

Lemma titled_updateTask i changes L :
  p_title changes = None -> Forall titled L -> Forall titled (updateTask i changes L).
Proof.
  intros Hc. unfold updateTask. induction 1 as [|t L Ht _ IH]; [constructor|].
  simpl. constructor; [|exact IH].
  destruct (decide (id t = i)); [|exact Ht].
  unfold titled, merge; simpl. rewrite Hc. exact Ht.
Qed.

(** X5: every title in the list is non-empty and trimmed, once that is so.
    A create stores the trimmed title and refuses a blank one; deleting,
    advancing, retreating and an update that does not touch the title leave
    the titles alone. *)
Theorem X5_titles_stay_non_empty_and_trimmed :
  forall L,
    Forall titled L ->
    (forall uuid stamp d dt,
        Forall titled (tasks (handleAddTask uuid stamp (mkState L d dt))))
    /\ (forall i, Forall titled (handleDelete i L))
    /\ (forall i direction, Forall titled (toggleStatus i direction L))
    /\ (forall i changes,
          p_title changes = None -> Forall titled (updateTask i changes L)).
Proof.
  intros L HL. split; [|split; [|split]].
  - intros uuid stamp d dt. unfold handleAddTask; cbn [draft tasks draftTags].
    destruct (p_title d) as [rawTitle|]; [|exact HL].
    destruct (Str.truthy (Str.trim rawTitle)) eqn:Htr; simpl; [|exact HL].
    constructor; [|exact HL]. split; simpl.
    + apply truthy_true. exact Htr.
    + apply trim_idem.
  - intros i. apply Forall_forall. intros t Ht.
    unfold handleDelete in Ht. apply list_elem_of_filter in Ht as [_ Ht].
    rewrite Forall_forall in HL. apply HL, Ht.
  - intros i direction. apply titled_toggleStatus, HL.
  - intros i changes Hc. apply titled_updateTask; assumption.
Qed.

Lemma X5_scenario_titles_stay_trimmed :
  (forall uuid stamp d dt,
      Forall titled (tasks (handleAddTask uuid stamp (mkState [jan; feb] d dt))))
  /\ (forall i, Forall titled (handleDelete i [jan; feb]))
  /\ (forall i direction, Forall titled (toggleStatus i direction [jan; feb]))
  /\ (forall i changes,
        p_title changes = None -> Forall titled (updateTask i changes [jan; feb])).
Proof.
  apply (X5_titles_stay_non_empty_and_trimmed [jan; feb]).
  repeat constructor; discriminate.
Defined.

(** ** Tags of a new task *)

(** [c] occurs in [s]. *)
Fixpoint occurs (c : ascii) (s : string) : bool :=
  match s with
  | EmptyString => false
  | String b s' => (Ascii.eqb c b || occurs c s')%bool
  end.

(** Every character of [s] satisfies [p]. *)
Fixpoint every (p : ascii -> bool) (s : string) : bool :=
  match s with
  | EmptyString => true
  | String b s' => (p b && every p s')%bool
  end.

Lemma includes_char s c : Str.includes s (String c EmptyString) = occurs c s.
Proof.
  induction s as [|b s IH]; simpl; [reflexivity|].
  rewrite IH. destruct (Ascii.eqb c b); reflexivity.
Qed.

Lemma split_no_sep sep s :
  Forall (fun w => occurs sep w = false) (Str.split sep s).
Proof.
  induction s as [|c s IH]; simpl; [repeat constructor|].
  destruct (Ascii.eqb c sep) eqn:E.
  - constructor; [reflexivity | exact IH].
  - destruct (Str.split sep s) as [|w ws].
    + repeat constructor. simpl. rewrite Ascii.eqb_sym, E. reflexivity.
    + inversion_clear IH as [|? ? Hw Hws]. constructor; [|exact Hws].
      simpl. rewrite Ascii.eqb_sym, E. exact Hw.
Qed.

Lemma trimStart_occurs c s : occurs c s = false -> occurs c (Str.trimStart s) = false.
Proof.
  induction s as [|b s IH]; simpl; [reflexivity|]. intros H.
  apply orb_false_iff in H as [Hb Hs].
  destruct (Str.isSpace b); [apply IH, Hs|]. simpl. rewrite Hb, Hs. reflexivity.
Qed.

Lemma trimEnd_occurs c s : occurs c s = false -> occurs c (Str.trimEnd s) = false.
Proof.
  induction s as [|b s IH]; simpl; [reflexivity|]. intros H.
  apply orb_false_iff in H as [Hb Hs]. specialize (IH Hs).
  destruct (Str.trimEnd s) as [|b' r].
  - destruct (Str.isSpace b); simpl; [reflexivity | rewrite Hb; reflexivity].
  - simpl in *. rewrite Hb, IH. reflexivity.
Qed.

Lemma trim_occurs c s : occurs c s = false -> occurs c (Str.trim s) = false.
Proof. intros H. apply trimEnd_occurs, trimStart_occurs, H. Qed.

Lemma stripNonAlnum_every s : every Str.isAlnum (Str.stripNonAlnum s) = true.
Proof.
  induction s as [|c s IH]; simpl; [reflexivity|].
  destruct (Str.isAlnum c) eqn:E; [simpl; rewrite E|]; exact IH.
Qed.

Lemma nonEmpty_elem tag l : In tag (nonEmpty l) <-> In tag l /\ tag <> EmptyString.
Proof. unfold nonEmpty. rewrite List.filter_In, truthy_true. tauto. Qed.

(** X6: tags typed by the user.  When the tag field is not blank, every tag
    of the new task is one of its comma-separated pieces, trimmed; no tag is
    empty, none has white space around it, none contains a comma. *)
Theorem X6_typed_tags_are_trimmed_pieces :
  forall rawTitle rawTags,
    blank rawTags = false ->
    Forall (fun tag =>
              tag <> EmptyString
              /\ Str.trim tag = tag
              /\ Str.includes tag "," = false
              /\ exists piece, In piece (Str.split "," rawTags) /\ tag = Str.trim piece)
           (tagList rawTitle rawTags).
Proof.
  intros rawTitle rawTags Hb. unfold tagList.
  destruct (Str.trim rawTags) as [|c r] eqn:Htrim.
  { apply trim_blank in Htrim. congruence. }
  simpl. apply List.Forall_forall. intros tag Htag.
  apply nonEmpty_elem in Htag as [Hin Hne].
  apply in_map_iff in Hin as (piece & <- & Hpiece).
  split; [exact Hne|]. split; [apply trim_idem|]. split.
  - rewrite (includes_char (Str.trim piece) ","). apply trim_occurs.
    pose proof (split_no_sep "," rawTags) as Hall.
    rewrite List.Forall_forall in Hall. apply Hall, Hpiece.
  - exists piece. split; [exact Hpiece | reflexivity].
Qed.

Lemma X6_typed_tags_example :
  Forall (fun tag =>
            tag <> EmptyString
            /\ Str.trim tag = tag
            /\ Str.includes tag "," = false
            /\ exists piece,
                 In piece (Str.split "," " ops, , Q1 plan ,") /\ tag = Str.trim piece)
         (tagList "Call vendor" " ops, , Q1 plan ,").
Proof.
  apply (X6_typed_tags_are_trimmed_pieces "Call vendor"%string
                                          " ops, , Q1 plan ,"%string).
  reflexivity.
Defined.

(** X7: suggested tags.  When the tag field is blank the new task gets at
    most two tags, each made of letters and digits only and none empty,
    each cut from one of the first two space-separated pieces of the title
    as typed. *)
Theorem X7_suggested_tags_are_alphanumeric :
  forall rawTitle rawTags,
    blank rawTags = true ->
    (length (tagList rawTitle rawTags) <= 2)%nat
    /\ Forall (fun tag =>
                 tag <> EmptyString
                 /\ every Str.isAlnum tag = true
                 /\ exists piece,
                      In piece (take 2 (Str.split " " rawTitle))
                      /\ tag = Str.stripNonAlnum piece)
              (tagList rawTitle rawTags).
Proof.
  intros rawTitle rawTags Hb.
  destruct (auto_tags_at_most_two rawTitle rawTags Hb) as [-> Hlen].
  split.
  - unfold nonEmpty. etransitivity; [apply List.filter_length_le|].
    rewrite length_map, length_take. lia.
  - apply List.Forall_forall. intros tag Htag.
    apply nonEmpty_elem in Htag as [Hin Hne].
    apply in_map_iff in Hin as (piece & <- & Hpiece).
    split; [exact Hne|]. split; [apply stripNonAlnum_every|].
    exists piece. split; [exact Hpiece | reflexivity].
Qed.

Lemma X7_suggested_tags_example :
  (length (tagList "Q1: plan launch" "  ") <= 2)%nat
  /\ Forall (fun tag =>
               tag <> EmptyString
               /\ every Str.isAlnum tag = true
               /\ exists piece,
                    In piece (take 2 (Str.split " " "Q1: plan launch"))
                    /\ tag = Str.stripNonAlnum piece)
            (tagList "Q1: plan launch" "  ").
Proof.
  apply (X7_suggested_tags_are_alphanumeric "Q1: plan launch"%string "  "%string).
  reflexivity.
Defined.

(** ** Advancing and retreating *)

(** [{ ...task, status: s }] *)
Definition with_status (s : Status) (t : Task) : Task :=
  mkTask (id t) (title t) (description t) s (priority t) (dueDate t) (tags t)
         (createdAt t).

(** What [toggleStatus] does to one task. *)
Definition toggle1 (i : string) (direction : Direction) (t : Task) : Task :=
  if decide (id t = i) then with_status (step direction (status t)) t else t.

Lemma toggleStatus_map i direction L :
  toggleStatus i direction L = map (toggle1 i direction) L.
Proof.
  induction L as [|t L IH]; [reflexivity|].
  rewrite toggleStatus_cons, IH. reflexivity.
Qed.

Lemma id_toggle1 i direction t : id (toggle1 i direction t) = id t.
Proof. unfold toggle1. destruct (decide (id t = i)); reflexivity. Qed.

Lemma map_fixed_iff {A} (f : A -> A) (l : list A) :
  map f l = l <-> Forall (fun x => f x = x) l.
Proof.
  split; [|apply map_unchanged].
  induction l as [|x l IH]; simpl; intros H; [constructor|].
  injection H as Hx Hl. constructor; [exact Hx | apply IH, Hl].
Qed.

Lemma with_status_same s t : with_status s t = t <-> s = status t.
Proof.
  destruct t; unfold with_status; simpl. split; [intros [= ->] | intros ->]; reflexivity.
Qed.

Lemma retreat_advance s : previousStatus (nextStatus s) = s <-> s <> Done.
Proof. destruct s; simpl; split; intros H; try congruence; try reflexivity; discriminate. Qed.

Lemma advance_retreat s : nextStatus (previousStatus s) = s <-> s <> Backlog.
Proof. destruct s; simpl; split; intros H; try congruence; try reflexivity; discriminate. Qed.

Lemma toggle1_twice i d1 d2 t :
  toggle1 i d2 (toggle1 i d1 t)
  = if decide (id t = i) then with_status (step d2 (step d1 (status t))) t else t.
Proof.
  unfold toggle1. destruct (decide (id t = i)) as [E|E]; simpl.
  - destruct (decide (id t = i)); [reflexivity | contradiction].
  - destruct (decide (id t = i)); [contradiction | reflexivity].
Qed.

Lemma toggle1_retreat_advance i t :
  toggle1 i Backward (toggle1 i Forward t) = t <-> (id t = i -> status t <> Done).
Proof.
  rewrite toggle1_twice. destruct (decide (id t = i)) as [E|E].
  - rewrite with_status_same. simpl. rewrite retreat_advance. tauto.
  - split; [intros _ E'; contradiction | reflexivity].
Qed.

Lemma toggle1_advance_retreat i t :
  toggle1 i Forward (toggle1 i Backward t) = t <-> (id t = i -> status t <> Backlog).
Proof.
  rewrite toggle1_twice. destruct (decide (id t = i)) as [E|E].
  - rewrite with_status_same. simpl. rewrite advance_retreat. tauto.
  - split; [intros _ E'; contradiction | reflexivity].
Qed.

(** X8: retreat undoes advance exactly when no task with the identifier was
    [done], and advance undoes retreat exactly when none was in [backlog];
    a task at the end of the line is moved by the way back only. *)
Theorem X8_toggle_round_trips :
  forall i L,
    (toggleStatus i Backward (toggleStatus i Forward L) = L
     <-> Forall (fun t => id t = i -> status t <> Done) L)
    /\ (toggleStatus i Forward (toggleStatus i Backward L) = L
        <-> Forall (fun t => id t = i -> status t <> Backlog) L).
Proof.
  intros i L. rewrite !toggleStatus_map, !map_map, !map_fixed_iff.
  split; apply Forall_proper; try reflexivity; intros t.
  - apply toggle1_retreat_advance.
  - apply toggle1_advance_retreat.
Qed.

(** X9: three advances bring every task with the identifier to [done],
    wherever it started, and from there a further advance changes nothing.
    Three retreats do the same towards [backlog]. *)
Theorem X9_three_steps_reach_the_end :
  forall i L,
    let advanced :=
      toggleStatus i Forward (toggleStatus i Forward (toggleStatus i Forward L)) in
    let retreated :=
      toggleStatus i Backward (toggleStatus i Backward (toggleStatus i Backward L)) in
    Forall (fun t => id t = i -> status t = Done) advanced
    /\ toggleStatus i Forward advanced = advanced
    /\ Forall (fun t => id t = i -> status t = Backlog) retreated
    /\ toggleStatus i Backward retreated = retreated.
Proof.
  intros i L advanced retreated.
  assert (Hstep : forall d t,
             toggle1 i d (toggle1 i d (toggle1 i d t))
             = if decide (id t = i)
               then with_status (step d (step d (step d (status t)))) t else t).
  { intros d t. rewrite toggle1_twice. unfold toggle1.
    destruct (decide (id t = i)) as [E|E]; simpl.
    - destruct (decide (id t = i)); [reflexivity | contradiction].
    - destruct (decide (id t = i)); [contradiction | reflexivity]. }
  assert (Hmap : forall d,
             toggleStatus i d (toggleStatus i d (toggleStatus i d L))
             = map (fun t => toggle1 i d (toggle1 i d (toggle1 i d t))) L).
  { intros d. rewrite !toggleStatus_map, !map_map. reflexivity. }
  assert (Hend : forall d t,
             let t3 := toggle1 i d (toggle1 i d (toggle1 i d t)) in
             (id t3 = i -> status t3 = step d (step d (step d (status t))))
             /\ toggle1 i d t3 = t3).
  { intros d t t3. unfold t3. rewrite Hstep. unfold toggle1.
    destruct (decide (id t = i)) as [E|E]; simpl.
    - destruct (decide (id t = i)); [|contradiction]. split; [reflexivity|].
      unfold with_status; simpl. destruct d, (status t); reflexivity.
    - destruct (decide (id t = i)); [contradiction|]. split; [tauto | reflexivity]. }
  unfold advanced, retreated. rewrite !Hmap.
  repeat split.
  - apply List.Forall_map, Forall_forall. intros t _ Hid.
    rewrite (proj1 (Hend Forward t) Hid). destruct (status t); reflexivity.
  - rewrite toggleStatus_map, map_map. apply map_ext. intros t. apply Hend.
  - apply List.Forall_map, Forall_forall. intros t _ Hid.
    rewrite (proj1 (Hend Backward t) Hid). destruct (status t); reflexivity.
  - rewrite toggleStatus_map, map_map. apply map_ext. intros t. apply Hend.
Qed.

(** X10: a delete and a status change can be done in either order, whatever
    the two identifiers are. *)
Theorem X10_delete_commutes_with_toggle :
  forall i j direction L,
    handleDelete i (toggleStatus j direction L)
    = toggleStatus j direction (handleDelete i L).
Proof.
  intros i j direction L. rewrite !toggleStatus_map. unfold handleDelete.
  induction L as [|t L IH]; [reflexivity|].
  simpl. rewrite !filter_cons, id_toggle1.
  destruct (decide (id t <> i)); simpl; rewrite IH; reflexivity.
Qed.

(** ** Filtering, composed *)

Lemma filter_sublist_impl {A} (P Q : A -> Prop)
    `{!forall x, Decision (P x)} `{!forall x, Decision (Q x)} (l : list A) :
  (forall x, P x -> Q x) -> filter P l `sublist_of` filter Q l.
Proof.
  intros HPQ. induction l as [|x l IH]; [constructor|].
  rewrite !filter_cons. destruct (decide (P x)) as [HP|HP].
  - rewrite decide_True by (apply HPQ, HP). apply sublist_skip, IH.
  - destruct (decide (Q x)); [apply sublist_cons, IH | exact IH].
Qed.

(** X11: whether a task is shown depends on that task alone.  Filtering a
    list in two parts gives the two filtered parts; filtering what is
    already filtered changes nothing; and deleting before filtering is
    deleting after. *)
Theorem X11_filter_judges_each_task_alone {dates : DateFns} :
  forall now F,
    (forall L1 L2,
        filteredTasks now (L1 ++ L2) F
        = filteredTasks now L1 F ++ filteredTasks now L2 F)
    /\ (forall L, filteredTasks now (filteredTasks now L F) F = filteredTasks now L F)
    /\ (forall i L,
          filteredTasks now (handleDelete i L) F
          = handleDelete i (filteredTasks now L F)).
Proof.
  intros now F. split; [|split].
  - intros L1 L2. apply filter_app.
  - intros L. unfold filteredTasks at 1. apply filter_everything, Forall_forall.
    intros t Ht. unfold filteredTasks in Ht. apply list_elem_of_filter in Ht. tauto.
  - intros i L. unfold filteredTasks, handleDelete.
    rewrite !list_filter_filter. apply list_filter_iff. intros t. tauto.
Qed.

(** [wide] asks for no more than [narrow]: each of its four fields is
    either switched off or the same. *)
Definition relaxes (wide narrow : Filters) : Prop :=
  (f_query wide = EmptyString \/ f_query wide = f_query narrow)
  /\ (f_status wide = None \/ f_status wide = f_status narrow)
  /\ (f_priority wide = None \/ f_priority wide = f_priority narrow)
  /\ (f_horizon wide = HorizonAll \/ f_horizon wide = f_horizon narrow).

(** X12: switching a constraint off never hides a task.  What the narrower
    filters show is part of what the wider ones show, in the same order. *)
Theorem X12_wider_filters_show_more {dates : DateFns} :
  forall now L wide narrow,
    relaxes wide narrow ->
    filteredTasks now L narrow `sublist_of` filteredTasks now L wide.
Proof.
  intros now L wide narrow (Hq & Hs & Hp & Hh).
  unfold filteredTasks. apply filter_sublist_impl. intros t.
  rewrite !Is_true_true, !keep_passes. unfold passes.
  intros (Pq & Ps & Pp & Ph). repeat split.
  - destruct Hq as [-> | ->]; [left; reflexivity | exact Pq].
  - destruct Hs as [-> | ->]; [left; reflexivity | exact Ps].
  - destruct Hp as [-> | ->]; [left; reflexivity | exact Pp].
  - destruct Hh as [-> | ->]; [intros d _ _; exact I | exact Ph].
Qed.

Lemma X12_dropping_the_status_filter :
  filteredTasks (dates := UtcCalendar.dateFns) march1 twoOfThree
                (mkFilters "report" (Some Done) None HorizonOverdue)
  `sublist_of`
  filteredTasks (dates := UtcCalendar.dateFns) march1 twoOfThree
                (mkFilters "report" None None HorizonOverdue).
Proof.
  apply (X12_wider_filters_show_more (dates := UtcCalendar.dateFns)).
  repeat split; simpl; tauto.
Defined.

Lemma toLowerCase_truthy s : Str.truthy (Str.toLowerCase s) = Str.truthy s.
Proof. destruct s; reflexivity. Qed.

(** X13: the search ignores the case of the query.  Two queries that differ
    in case only select the same tasks. *)
Theorem X13_query_case_is_ignored {dates : DateFns} :
  forall now L q1 q2 s p h,
    Str.toLowerCase q1 = Str.toLowerCase q2 ->
    filteredTasks now L (mkFilters q1 s p h) = filteredTasks now L (mkFilters q2 s p h).
Proof.
  intros now L q1 q2 s p h Hlow. unfold filteredTasks.
  apply list_filter_iff. intros t.
  assert (Hk : keep now (mkFilters q1 s p h) t = keep now (mkFilters q2 s p h) t).
  { unfold keep; simpl.
    rewrite <- (toLowerCase_truthy q1), <- (toLowerCase_truthy q2), Hlow.
    reflexivity. }
  rewrite Hk. tauto.
Qed.

Lemma X13_upper_and_lower_case_query :
  filteredTasks (dates := UtcCalendar.dateFns) march1 twoOfThree
                (mkFilters "REPORT" None None HorizonAll)
  = filteredTasks (dates := UtcCalendar.dateFns) march1 twoOfThree
                  (mkFilters "report" None None HorizonAll).
Proof.
  apply (X13_query_case_is_ignored (dates := UtcCalendar.dateFns)).
  reflexivity.
Defined.

(** ** Stats, accounted *)

Lemma done_plus_overdue {dates : DateFns} now (L : list Task) :
  (length (filter (fun task => is_done task) L)
   + length (filter (fun task => is_overdue now task) L)
   <= length L)%nat.
Proof.
  induction L as [|t L IH]; [reflexivity|].
  rewrite !filter_cons.
  assert (Hex : is_overdue now t = true -> is_done t = false).
  { unfold is_overdue. destruct (due_of t); [|discriminate].
    rewrite andb_true_iff, negb_true_iff. tauto. }
  destruct (is_done t) eqn:Hd, (is_overdue now t) eqn:Ho; simpl;
    first [specialize (Hex eq_refl); discriminate | lia].
Qed.

Lemma not_done_count (L : list Task) :
  (length (filter (fun task => is_done task) L)
   + length (filter (fun t => status t <> Done) L))%nat = length L.
Proof.
  induction L as [|t L IH]; [reflexivity|].
  rewrite !filter_cons.
  destruct (decide (is_done t)) as [Hd|Hd], (decide (status t <> Done)) as [Hn|Hn];
    simpl; try lia; exfalso; unfold is_done in Hd.
  - apply bool_decide_unpack in Hd. contradiction.
  - apply Hd, bool_decide_pack. destruct (decide (status t = Done)); tauto.
Qed.

(** X14: the figures of the header add up.  No task is counted both as done
    and as overdue, so [done + overdue] never exceeds [totals]; the "active"
    figure [totals - done] is never negative and is the number of tasks that
    are not done; and the momentum feed shows three tasks, or all the done
    ones when there are fewer. *)
Theorem X14_header_figures_add_up
    {dates : DateFns} {collation : Collation} {numbers : Float64} :
  forall now L,
    let s := stats now L in
    (done s + overdue s <= totals s)%nat
    /\ active s = Z.of_nat (length (filter (fun t => status t <> Done) L))
    /\ (0 <= active s)%Z
    /\ length (flow s) = Nat.min 3 (done s).
Proof.
  intros now L s. unfold s, active, stats; cbn [totals done overdue flow].
  pose proof (done_plus_overdue now L) as H1.
  pose proof (not_done_count L) as H2.
  split; [exact H1|]. split; [lia|]. split; [lia|].
  unfold slice_last. rewrite length_drop.
  rewrite (Permutation_length (sortBy_Permutation flowCompare _)). lia.
Qed.

(** X15: whenever the exact percentage of done tasks is a whole number,
    [health] is that number: 100 when every task is done, 0 when none is,
    50 for one half.  The list is one an array can hold. *)
Theorem X15_whole_percentages_are_exact
    {dates : DateFns} {collation : Collation} {numbers : Float64} :
  forall now L k,
    L <> [] ->
    (Z.of_nat (length L) < arrayLimit)%Z ->
    (100 * Z.of_nat (done (stats now L)) = k * Z.of_nat (length L))%Z ->
    health (stats now L) = k.
Proof.
  intros now L k Hne Hlim Hk.
  assert (Hpos : (0 < Z.of_nat (length L))%Z)
    by (destruct L; [congruence | simpl; lia]).
  unfold stats in *; cbn [health done totals] in *.
  destruct (health_of_nearest (length L)
              (length (filter (fun task => is_done task) L))
              (length_filter _ L) Hlim) as [_ Hnear].
  set (h := health_of _ _) in *. set (t := Z.of_nat (length L)) in *.
  rewrite Hk in Hnear.
  assert (Habs : (2 * Z.abs (h - k) * t <= t)%Z).
  { replace (h * t - k * t)%Z with ((h - k) * t)%Z in Hnear by ring.
    rewrite Z.abs_mul, (Z.abs_eq t) in Hnear by lia. lia. }
  assert (Z.abs (h - k) < 1)%Z by nia. lia.
Qed.

(** Three finished tasks out of three. *)
Lemma X15_all_done_is_100 :
  health (stats (dates := UtcCalendar.dateFns) (collation := CodeUnits.collation)
                (numbers := Exact.float64) march1 [jan; feb; undated]) = 100%Z.
Proof.
  apply (X15_whole_percentages_are_exact
           (dates := UtcCalendar.dateFns) (collation := CodeUnits.collation)
           (numbers := Exact.float64) march1 [jan; feb; undated] 100%Z).
  - discriminate.
  - reflexivity.
  - reflexivity.
Defined.

Lemma filter_insertBy {A} (cmp : A -> A -> comparison) (P : A -> Prop)
    `{!forall x, Decision (P x)} x l :
  (forall a b, P a -> P b -> cmp a b <> Gt) ->
  filter P (insertBy cmp x l) = filter P (x :: l).
Proof.
  intros Hclass. induction l as [|y l IH]; [reflexivity|]. simpl.
  destruct (cmp x y) eqn:Hxy; try reflexivity.
  rewrite filter_cons, IH, !filter_cons.
  destruct (decide (P x)) as [Hx|Hx], (decide (P y)) as [Hy|Hy]; try reflexivity.
  exfalso. apply (Hclass x y Hx Hy). exact Hxy.
Qed.

Lemma filter_sortBy {A} (cmp : A -> A -> comparison) (P : A -> Prop)
    `{!forall x, Decision (P x)} l :
  (forall a b, P a -> P b -> cmp a b <> Gt) ->
  filter P (sortBy cmp l) = filter P l.
Proof.
  intros Hclass. induction l as [|x l IH]; [reflexivity|].
  unfold sortBy in *; simpl.
  rewrite filter_insertBy by exact Hclass. rewrite !filter_cons, IH. reflexivity.
Qed.

Lemma localeCompare_same {collation : Collation} a : localeCompare a a <> Gt.
Proof.
  pose proof (localeCompare_antisym a a) as H.
  destruct (localeCompare a a); simpl in H; congruence.
Qed.

(** X16: the sort of the momentum feed is stable.  The feed entries that
    share a due date (or have none) stand in the order of the task list, and
    when the feed is cut to three it is the first of them that go. *)
Theorem X16_flow_keeps_list_order_among_equal_dates
    {dates : DateFns} {collation : Collation} {numbers : Float64} :
  forall now L due,
    filter (fun t => dueDate t = due) (flow (stats now L))
    `suffix_of`
    filter (fun t => dueDate t = due) (filter (fun t => status t = Done) L).
Proof.
  intros now L due. unfold stats; cbn [flow]. unfold slice_last.
  assert (Hdone : filter (fun task => is_done task) L
                  = filter (fun t => status t = Done) L).
  { apply list_filter_iff. intros t. unfold is_done.
    rewrite Is_true_true. apply bool_decide_eq_true. }
  rewrite Hdone. set (dones := filter (fun t => status t = Done) L).
  rewrite <- (filter_sortBy flowCompare (fun t => dueDate t = due) dones).
  - set (sorted := sortBy flowCompare dones).
    exists (filter (fun t => dueDate t = due) (take (length sorted - 3) sorted)).
    rewrite <- filter_app, take_drop. reflexivity.
  - intros a b Ha Hb. unfold flowCompare. rewrite Ha, Hb. apply localeCompare_same.
Qed.

(** ** Task card and board *)

(** The tone of the card, when it renders. *)
Definition cardTone {dates : DateFns} {fmt : DateFormat} (now : Date) (t : Task)
  : option string :=
  tone <$> dueState now t.

(** The cards on the board: one for every task the filters keep. *)
Definition cards {dates : DateFns} (now : Date) (tasks : list Task)
    (filters : Filters) : list Task :=
  filteredTasks now tasks filters.

Section Card.
Context {dates : DateFns} {fmt : DateFormat}.

Lemma tone_overdue now t :
  cardTone now t = Some "text-rose-400"%string -> is_overdue now t = true.
Proof.
  unfold cardTone, dueState, is_overdue. destruct (due_of t) as [d|]; simpl.
  - destruct (isBefore (parseISO d) now && negb (is_done t))%bool; simpl.
    + reflexivity.
    + destruct (isToday now (parseISO d)); simpl;
        destruct (format (parseISO d) _); simpl; discriminate.
  - discriminate.
Qed.

Lemma overdue_tone now t :
  is_overdue now t = true -> is_Some (dueState now t) ->
  cardTone now t = Some "text-rose-400"%string.
Proof.
  unfold cardTone, dueState, is_overdue. destruct (due_of t) as [d|]; [|discriminate].
  intros ->. destruct (format (parseISO d) _); simpl; intros [st Hst];
    [reflexivity | discriminate].
Qed.

Lemma tone_today now t :
  cardTone now t = Some "text-amber-400"%string ->
  exists d, due_of t = Some d /\ isToday now (parseISO d) = true.
Proof.
  unfold cardTone, dueState. destruct (due_of t) as [d|]; simpl; [|discriminate].
  destruct (isBefore (parseISO d) now && negb (is_done t))%bool; simpl.
  { destruct (format (parseISO d) _); simpl; discriminate. }
  destruct (isToday now (parseISO d)) eqn:E; simpl.
  - intros _. exists d. split; [reflexivity | exact E].
  - destruct (format (parseISO d) _); simpl; discriminate.
Qed.

Lemma no_due_label now t st :
  dueState now t = Some st ->
  (label st = "No due date"%string <-> due_of t = None).
Proof.
  unfold dueState. destruct (due_of t) as [d|]; simpl.
  - destruct (isBefore (parseISO d) now && negb (is_done t))%bool; simpl.
    { destruct (format (parseISO d) _); simpl; intros [= <-]; simpl;
        split; discriminate. }
    destruct (isToday now (parseISO d)); simpl;
      destruct (format (parseISO d) _); simpl; intros [= <-]; simpl;
      split; discriminate.
  - intros [= <-]. simpl. tauto.
Qed.

End Card.

Lemma filteredTasks_identity {dates : DateFns} now L :
  filteredTasks now L identityFilters = L.
Proof.
  apply filter_everything, Forall_forall. intros t _.
  apply Is_true_true, keep_passes. repeat split; left; reflexivity.
Qed.

(** The filters with one horizon and nothing else. *)
Definition onlyHorizon (h : Horizon) : Filters :=
  {| f_query := EmptyString; f_status := None; f_priority := None; f_horizon := h |}.


(** A formatter for the reference calendar, to run the card: it prints the
    pattern for a valid date and fails for an invalid one. *)
Definition printPattern (d : option Z) (pattern : string) : option string :=
  match d with Some _ => Some pattern | None => None end.

#[export] Instance utcFormat : @DateFormat UtcCalendar.dateFns :=
  @Build_DateFormat UtcCalendar.dateFns printPattern.

(** A backlog task that is past due on the first of March. *)
Definition pastDueOpen : Task :=
  mkTask "6" "Renew contract" None Backlog High (Some "2024-02-01"%string) [] "".


Lemma filter_by_status (l : list Task) :
  filter (fun t => status t = Backlog) l
  ++ filter (fun t => status t = InProgress) l
  ++ filter (fun t => status t = Review) l
  ++ filter (fun t => status t = Done) l
  ≡ₚ l.
Proof.
  induction l as [|x l IH]; [reflexivity|].
  rewrite !filter_cons.
  destruct (status x) eqn:E;
    repeat match goal with
           | |- context [decide (?a = ?b)] =>
               destruct (decide (a = b)); try discriminate; try congruence
           end.
  - rewrite <- app_comm_cons. constructor. exact IH.
  - rewrite <- app_comm_cons, <- Permutation_middle. constructor. exact IH.
  - rewrite <- app_comm_cons, app_assoc, <- Permutation_middle, <- app_assoc.
    constructor. exact IH.
  - rewrite !app_assoc, <- Permutation_middle, <- !app_assoc. constructor. exact IH.
Qed.

(** X18: the four columns of the board split the filtered list.  Every
    shown task is on the column of its status and on no other, in the order
    of the list; the four "shown" counts add up to the number of tasks
    shown; a status summary never counts more shown than there are; and
    while a status filter is on, the columns of the other stages are
    empty. *)
Theorem X18_columns_partition_the_filtered_list {dates : DateFns} :
  forall now L F,
    concat (map (column now L F) order) ≡ₚ filteredTasks now L F
    /\ (length (column now L F Backlog) + length (column now L F InProgress)
        + length (column now L F Review) + length (column now L F Done))%nat
       = length (filteredTasks now L F)
    /\ (forall s, column now L F s `sublist_of` L
                  /\ Forall (fun t => status t = s) (column now L F s)
                  /\ (fst (summary now L F s) <= snd (summary now L F s))%nat)
    /\ (forall s s', f_status F = Some s -> s' <> s -> column now L F s' = []).
Proof.
  intros now L F.
  assert (Hperm : concat (map (column now L F) order) ≡ₚ filteredTasks now L F).
  { simpl. rewrite app_nil_r. apply filter_by_status. }
  split; [exact Hperm|]. split; [|split].
  - rewrite <- (Permutation_length Hperm). simpl.
    rewrite !length_app. simpl. lia.
  - intros s. split; [|split].
    + unfold column, filteredTasks. etransitivity; apply sublist_filter.
    + apply Forall_forall. intros t Ht. unfold column in Ht.
      apply list_elem_of_filter in Ht. tauto.
    + unfold summary; simpl. unfold filteredTasks.
      rewrite list_filter_filter.
      apply sublist_length, filter_sublist_impl. tauto.
  - intros s s' HF Hne. unfold column.
    destruct (filter (fun task => status task = s') (filteredTasks now L F))
      as [|t rest] eqn:E; [reflexivity|]. exfalso.
    assert (Ht : t ∈ filter (fun task => status task = s') (filteredTasks now L F))
      by (rewrite E; left).
    apply list_elem_of_filter in Ht as [Hs Ht].
    apply filteredTasks_elem in Ht as [_ (_ & [Hst | Hst] & _)]; congruence.
Qed.

(** ** Removing a tag *)

(** [{ ...task, tags: tg }] *)
Definition with_tags (tg : list string) (t : Task) : Task :=
  mkTask (id t) (title t) (description t) (status t) (priority t) (dueDate t) tg
         (createdAt t).

(** X19: a click on a tag chip.  In a list with pairwise different
    identifiers, the click on a tag of the task at position [k] replaces
    that task by itself without the tag and touches nothing else: the other
    fields of the task, its other tags and their order, and all other tasks
    are as before.  The tag is gone from the task, with all its repetitions. *)
Theorem X19_tag_click_removes_the_tag_only :
  forall L k task tag,
    NoDup (map id L) ->
    L !! k = Some task ->
    removeTag task tag L
    = <[k := with_tags (filter (fun existing => existing <> tag) (tags task)) task]> L
    /\ (tag ∉ filter (fun existing => existing <> tag) (tags task))
    /\ (filter (fun existing => existing <> tag) (tags task) `sublist_of` tags task)
    /\ length (removeTag task tag L) = length L.
Proof.
  intros L k task tag Hnd Hk.
  assert (Heq : removeTag task tag L
                = <[k := with_tags (filter (fun existing => existing <> tag)
                                           (tags task)) task]> L).
  { apply list_eq. intros j. unfold removeTag, updateTask. rewrite lookup_map.
    destruct (decide (j = k)) as [->|Hjk].
    - rewrite list_lookup_insert_eq by (eapply lookup_lt_Some; exact Hk).
      rewrite Hk. simpl. destruct (decide (id task = id task)); [reflexivity | congruence].
    - rewrite list_lookup_insert_ne by congruence.
      destruct (L !! j) as [t|] eqn:Hj; [|reflexivity]. simpl.
      destruct (decide (id t = id task)) as [E|E]; [|reflexivity].
      exfalso. apply Hjk.
      apply (NoDup_lookup (map id L) j k (id task) Hnd).
      + rewrite lookup_map, Hj. simpl. congruence.
      + rewrite lookup_map, Hk. reflexivity. }
  split; [exact Heq|]. split; [|split].
  - intros Hin. apply list_elem_of_filter in Hin. tauto.
  - apply sublist_filter.
  - rewrite Heq. apply length_insert.
Qed.

(** A task that carries one tag twice. *)
Definition tagged : Task :=
  mkTask "5" "Ship dashboard" None Review High None ["Product"; "Delivery"; "Product"]%string "".

Lemma X19_remove_product_tag :
  removeTag tagged "Product" [jan; tagged; undated]
  = <[1%nat := with_tags (filter (fun existing => existing <> "Product"%string)
                                 (tags tagged)) tagged]> [jan; tagged; undated]
  /\ ("Product"%string
      ∉ filter (fun existing => existing <> "Product"%string) (tags tagged))
  /\ (filter (fun existing => existing <> "Product"%string) (tags tagged)
      `sublist_of` tags tagged)
  /\ length (removeTag tagged "Product" [jan; tagged; undated])
     = length [jan; tagged; undated].
Proof.
  apply (X19_tag_click_removes_the_tag_only [jan; tagged; undated] 1%nat tagged
           "Product"%string).
  - apply (bool_decide_unpack _). vm_compute. exact I.
  - reflexivity.
Defined.

(** ** Persistent state cell *)

Module Cell.
Import stdpp.gmap.

(** [JSON.stringify] and [JSON.parse] at the type of the state; [parse]
    gives [None] where [JSON.parse] throws. *)
Class Json (T : Type) := {
  stringify : T -> string;
  parse : string -> option T;
}.

(** The initializer of [useState] in [usePersistentState]: the state the
    component starts with, and whether the parse failure was logged.
    [window] is [window.localStorage], a map from keys to stored texts, or
    [None] where [typeof window === "undefined"]. *)
Definition initialState {T} {json : Json T}
    (window : option (gmap string string)) (key : string) (initialValue : T)
  : T * bool :=
  match window with
  | None => (initialValue, false)
  | Some localStorage =>
      match localStorage !! key with
      | None => (initialValue, false)
      | Some stored =>
          if negb (Str.truthy stored) then (initialValue, false)
          else match parse stored with
               | Some v => (v, false)
               | None => (initialValue, true)
               end
      end
  end.

(** The effect of [usePersistentState], run after the first render and after
    every change of the state. *)
Definition persist {T} {json : Json T}
    (window : option (gmap string string)) (key : string) (state : T)
  : option (gmap string string) :=
  match window with
  | None => None
  | Some localStorage => Some (<[key := stringify state]> localStorage)
  end.

(** JSON for a boolean state, to run the cell. *)
#[export] Instance boolJson : Json bool :=
  {| stringify := fun b : bool => if b then "true"%string else "false"%string;
     parse := fun s =>
       if String.eqb s "true" then Some true
       else if String.eqb s "false" then Some false
       else None |}.

(** X20: what was saved is what is loaded.  After the effect has stored a
    state, a fresh start reads that state back and logs nothing, provided
    the text of the state parses back to it and is not empty; the effect
    writes under its own key only, and storing the same state again changes
    nothing. *)
Theorem X20_saved_state_is_loaded_back :
  forall T (json : Json T) (localStorage : gmap string string) key (state other : T),
    parse (stringify state) = Some state ->
    stringify state <> EmptyString ->
    exists stored,
      persist (Some localStorage) key state = Some stored
      /\ initialState (Some stored) key other = (state, false)
      /\ (forall key', key' <> key -> stored !! key' = localStorage !! key')
      /\ persist (Some stored) key state = Some stored.
Proof.
  intros T json localStorage key state other Hparse Hne.
  exists (<[key := stringify state]> localStorage). split; [reflexivity|].
  split; [|split].
  - unfold initialState. rewrite lookup_insert_eq.
    apply truthy_true in Hne. rewrite Hne. simpl. rewrite Hparse. reflexivity.
  - intros key' Hk. apply lookup_insert_ne. congruence.
  - unfold persist. rewrite insert_insert_eq. reflexivity.
Qed.

Lemma X20_boolean_saved_and_loaded :
  exists stored,
    persist (Some (<["theme" := "dark"%string]> ∅)) "agentic.flag" true = Some stored
    /\ initialState (Some stored) "agentic.flag" false = (true, false)
    /\ (forall key', key' <> "agentic.flag"%string ->
          stored !! key' = (<["theme" := "dark"%string]> ∅ : gmap string string) !! key')
    /\ persist (Some stored) "agentic.flag" true = Some stored.
Proof.
  apply (X20_saved_state_is_loaded_back bool boolJson
           (<["theme" := "dark"%string]> ∅) "agentic.flag"%string true false).
  - reflexivity.
  - discriminate.
Defined.

(** X21: starting never fails and never invents a state.  The state the
    component starts with is the initial value or the parsed text found
    under the key; the failure is logged exactly when a non-empty text is
    found that does not parse, and then the initial value is used; without
    a window the initial value is used and nothing is stored. *)
Theorem X21_start_falls_back_to_the_initial_value :
  forall T (json : Json T) window key (initialValue : T),
    let start := initialState window key initialValue in
    (start.1 = initialValue
     \/ exists localStorage stored,
          window = Some localStorage /\ localStorage !! key = Some stored
          /\ stored <> EmptyString /\ parse stored = Some start.1)
    /\ (start.2 = true
        <-> exists localStorage stored,
              window = Some localStorage /\ localStorage !! key = Some stored
              /\ stored <> EmptyString /\ parse stored = None)
    /\ (start.2 = true -> start.1 = initialValue)
    /\ (window = None ->
        start = (initialValue, false) /\ persist window key start.1 = None).
Proof.
  intros T json window key initialValue start. unfold start, initialState.
  destruct window as [localStorage|]; simpl.
  - destruct (localStorage !! key) as [stored|] eqn:Hk; simpl.
    + destruct (Str.truthy stored) eqn:Htr; simpl.
      * apply truthy_true in Htr.
        destruct (parse stored) as [v|] eqn:Hp; simpl.
        -- split; [right; exists localStorage, stored; auto|].
           split; [|split; [discriminate | discriminate]].
           split; [discriminate|].
           intros (ls & st & [= <-] & Hst & _ & Hnone). congruence.
        -- split; [left; reflexivity|].
           split; [|split; [reflexivity | discriminate]].
           split; [|reflexivity]. intros _. exists localStorage, stored. auto.
      * apply truthy_false in Htr.
        split; [left; reflexivity|].
        split; [|split; [discriminate | discriminate]].
        split; [discriminate|].
        intros (ls & st & [= <-] & Hst & Hne & _). congruence.
    + split; [left; reflexivity|].
      split; [|split; [discriminate | discriminate]].
      split; [discriminate|].
      intros (ls & st & [= <-] & Hst & _). congruence.
  - split; [left; reflexivity|].
    split; [|split; [discriminate|]].
    + split; [discriminate|]. intros (ls & st & [=] & _).
    + intros _. split; reflexivity.
Qed.

End Cell.

(** ** Create and the status counts, accounted *)

(** X22: a create adds one task or none.  With a missing or blank title the
    list is as it was; otherwise exactly one task is put in front of the
    old list, which stays unchanged behind it: it carries the generated
    identifier and time stamp, the trimmed title, and the stage and the
    priority chosen in the form, [backlog] and [medium] when none is. *)
Theorem X22_create_adds_one_task_in_front_or_nothing :
  forall uuid stamp st,
    match p_title (draft st) with
    | None => tasks (handleAddTask uuid stamp st) = tasks st
    | Some rawTitle =>
        if blank rawTitle
        then tasks (handleAddTask uuid stamp st) = tasks st
        else exists task,
            tasks (handleAddTask uuid stamp st) = task :: tasks st
            /\ id task = uuid
            /\ createdAt task = stamp
            /\ title task = Str.trim rawTitle
            /\ status task = default Backlog (p_status (draft st))
            /\ priority task = default Medium (p_priority (draft st))
    end.
Proof.
  intros uuid stamp st. unfold handleAddTask.
  destruct (p_title (draft st)) as [rawTitle|]; [|reflexivity].
  destruct (blank rawTitle) eqn:Hb.
  - apply trim_blank in Hb. rewrite Hb. reflexivity.
  - destruct (Str.truthy (Str.trim rawTitle)) eqn:Htr; simpl.
    + eexists. split; [reflexivity|]. repeat split.
    + apply truthy_false, trim_blank in Htr. congruence.
Qed.

Lemma filter_map_grows {A} (P : A -> Prop) `{!forall x, Decision (P x)}
    (f : A -> A) (l : list A) :
  (forall x, P x -> P (f x)) ->
  (length (filter P l) <= length (filter P (map f l)))%nat.
Proof.
  intros Hf. induction l as [|x l IH]; [reflexivity|].
  simpl. rewrite !filter_cons.
  destruct (decide (P x)) as [Hx|Hx].
  - rewrite decide_True by (apply Hf, Hx). simpl. lia.
  - destruct (decide (P (f x))); simpl; lia.
Qed.

Lemma filter_map_shrinks {A} (P : A -> Prop) `{!forall x, Decision (P x)}
    (f : A -> A) (l : list A) :
  (forall x, P (f x) -> P x) ->
  (length (filter P (map f l)) <= length (filter P l))%nat.
Proof.
  intros Hf. induction l as [|x l IH]; [reflexivity|].
  simpl. rewrite !filter_cons.
  destruct (decide (P (f x))) as [Hx|Hx].
  - rewrite decide_True by (apply Hf, Hx). simpl. lia.
  - destruct (decide (P x)); simpl; lia.
Qed.

Lemma due_of_toggle1 i direction t : due_of (toggle1 i direction t) = due_of t.
Proof. unfold toggle1. destruct (decide (id t = i)); reflexivity. Qed.

Lemma is_done_toggle1_forward i t :
  is_done t = true -> is_done (toggle1 i Forward t) = true.
Proof.
  unfold is_done, toggle1. rewrite !bool_decide_eq_true.
  destruct (decide (id t = i)); simpl; [|tauto]. intros ->. reflexivity.
Qed.

Lemma is_done_toggle1_backward i t :
  is_done (toggle1 i Backward t) = true -> is_done t = true.
Proof.
  unfold is_done, toggle1. rewrite !bool_decide_eq_true.
  destruct (decide (id t = i)); simpl; [|tauto].
  destruct (status t); intros H; vm_compute in H; congruence.
Qed.

(** X23: the header follows the board in the right direction.  An advance
    never lowers the number of done tasks and never raises the number of
    overdue ones; a retreat never raises the done count and never lowers the
    overdue one; neither changes the total. *)
Theorem X23_advance_and_retreat_move_the_counts_one_way
    {dates : DateFns} {collation : Collation} {numbers : Float64} :
  forall now i L,
    let before := stats now L in
    let advanced := stats now (toggleStatus i Forward L) in
    let retreated := stats now (toggleStatus i Backward L) in
    (totals advanced = totals before /\ totals retreated = totals before)
    /\ (done before <= done advanced)%nat
    /\ (overdue advanced <= overdue before)%nat
    /\ (done retreated <= done before)%nat
    /\ (overdue before <= overdue retreated)%nat.
Proof.
  intros now i L before advanced retreated.
  unfold before, advanced, retreated, stats; cbn [totals done overdue].
  rewrite !toggleStatus_map.
  assert (Hov : forall d t, is_overdue now (toggle1 i d t)
                            = match due_of t with
                              | None => false
                              | Some due => (isBefore (parseISO due) now
                                             && negb (is_done (toggle1 i d t)))%bool
                              end).
  { intros d t. unfold is_overdue. rewrite due_of_toggle1. reflexivity. }
  split; [split; apply length_map|]. split; [|split; [|split]].
  - apply filter_map_grows. intros t. rewrite !Is_true_true.
    apply is_done_toggle1_forward.
  - apply filter_map_shrinks. intros t. rewrite !Is_true_true, Hov.
    unfold is_overdue. destruct (due_of t); [|tauto].
    rewrite !andb_true_iff, !negb_true_iff. intros [Hb Hn]. split; [exact Hb|].
    destruct (is_done t) eqn:E; [|reflexivity].
    rewrite (is_done_toggle1_forward i t E) in Hn. discriminate.
  - apply filter_map_shrinks. intros t. rewrite !Is_true_true.
    apply is_done_toggle1_backward.
  - apply filter_map_grows. intros t. rewrite !Is_true_true, Hov.
    unfold is_overdue. destruct (due_of t); [|tauto].
    rewrite !andb_true_iff, !negb_true_iff. intros [Hb Hn]. split; [exact Hb|].
    destruct (is_done (toggle1 i Backward t)) eqn:E; [|reflexivity].
    rewrite (is_done_toggle1_backward i t E) in Hn. discriminate.
Qed.
